(** * GELF UDP writer: chunk planning, compression selection and send

    A shallow embedding of [gelf/udpwriter.go]: the chunk planner
    [numChunks], the constructor [NewUDPWriter], the buffer pool
    ([bufPool], [newBuffer]), [WriteMessage] and the stream-sink adapter
    [Write].

    Go's [int] is modelled as [Z]; every integer below is a length or a
    small constant, far from the 64-bit range.  A byte slice is a
    [list byte]; where it matters which buffer a slice is a view of, the
    slice carries the identity of its backing buffer. *)

From Stdlib Require Import ZArith List String Lia Bool Arith Permutation.
From Stdlib Require Import DecimalString.
From Stdlib Require Init.Byte.
Import ListNotations.

Local Open Scope Z_scope.

Definition byte : Type := Init.Byte.byte.

(** ** Constants *)

(** [type CompressType int], with the enumerators given by [iota]. *)
Definition CompressType := Z.
Definition CompressGzip : CompressType := 0.
Definition CompressZlib : CompressType := 1.
Definition CompressNone : CompressType := 2.

Definition ChunkSize : Z := 1420.
Definition chunkedHeaderLen : Z := 12.
Definition chunkedDataLen : Z := ChunkSize - chunkedHeaderLen.

Definition magicChunked : list byte := [Byte.x1e; Byte.x0f].
Definition magicZlib : list byte := [Byte.x78].
Definition magicGzip : list byte := [Byte.x1f; Byte.x8b].

(** [flate.BestSpeed] of the Go standard library. *)
Definition flate_BestSpeed : Z := 1.

(** Go's [len] on a byte slice. *)
Definition len (b : list byte) : Z := Z.of_nat (List.length b).

(** The verb [%d] of [fmt]. *)
Definition fmt_d (z : Z) : string := NilZero.string_of_int (Z.to_int z).

(** ** The chunk planner *)

(** [numChunks]: Go's [/] on [int] truncates, which is [Z.quot]. *)
Definition numChunks (b : list byte) : Z :=
  let lenB := len b in
  if lenB <=? ChunkSize then 1
  else Z.quot (len b) chunkedDataLen + 1.

(** The ceiling of [n / d], the number of [d]-byte chunks that [n] bytes
    need. *)
Definition ceil_div (n d : Z) : Z := (n + d - 1) / d.

(** A payload of [n] zero bytes. *)
Definition zeros (n : nat) : list byte := repeat Byte.x00 n.


(** ** Errors, slices and events *)

Section Model.

(** [E]: the error values made by collaborators (the JSON encoder, the
    codecs, the socket); [Message]: the GELF record; [Conn]: the
    connection handle kept in the writer; [Net]: the state of the
    network behind the handles. *)
Variables E Message Conn Net : Type.

(** A Go [error] that is not [nil]: either made by a collaborator or
    built here with [fmt.Errorf].  The [nil] error is [None]. *)
Inductive error : Type :=
| Foreign (e : E)
| Errorf (msg : string).

(** A Go result pair [(v, err)] of which exactly one side is set. *)
Inductive result (A : Type) : Type :=
| Ok (a : A)
| Err (e : error).

(** A byte slice together with the pooled buffer whose storage it
    views ([None] for the [nil] slice). *)
Record slice : Type := mkSlice {
  backing : option nat;
  bytes : list byte }.

Definition nil_slice : slice := mkSlice None [].

Inductive Codec : Type := Gzip | Zlib.

(** The calls [WriteMessage] makes on the pool and on its
    collaborators, in program order. *)
Inductive Event : Type :=
| EvGet (b : nat)
| EvPut (b : nat)
| EvMarshal (b : nat)
| EvNewWriter (c : Codec) (dst : nat) (level : Z)
| EvZWrite (c : Codec) (p : slice)
| EvZClose (c : Codec)
| EvConnWrite (p : slice)
| EvWriteChunked (p : slice).

(** The collaborators, none of which is defined in [udpwriter.go].
    - [MarshalJSONBuf m]: the bytes the encoder appends to the buffer it
      is given, and its error;
    - [NewWriterLevel c level]: the error of [gzip.NewWriterLevel] or
      [zlib.NewWriterLevel] (they return a nil writer exactly when they
      return an error);
    - [zw_Write c level p]: the bytes that writing [p] to the compressor
      appends to the scratch buffer, and the error of the write;
    - [zw_Close c level p werr]: the bytes that closing appends, and the
      error of the close, for a compressor that was written [p] with
      result [werr];
    - [conn_Write] and [writeChunked]: the socket write and the chunked
      sender, which act on the network. *)
Record Env : Type := mkEnv {
  MarshalJSONBuf : Message -> list byte * option error;
  NewWriterLevel : Codec -> Z -> option error;
  zw_Write : Codec -> Z -> list byte -> list byte * option error;
  zw_Close : Codec -> Z -> list byte -> option error -> list byte * option error;
  conn_Write : Conn -> list byte -> Net -> (Z * option error) * Net;
  writeChunked : Conn -> list byte -> Net -> option error * Net;
  getCallerIgnoringLogMulti : Z -> string * Z;
  constructMessage : list byte -> string -> string -> string -> Z -> Message;
  net_Dial : string -> string -> result Conn;
  os_Hostname : result string;
  os_Args0 : string;
  path_Base : string -> string }.

Variable env : Env.

(** [type UDPWriter struct], with the fields of the embedded [Writer]
    that this file uses. *)
Record UDPWriter : Type := mkUDPWriter {
  conn : Conn;
  hostname : string;
  Facility : string;
  CompressionLevel : Z;
  CompressionType : CompressType }.

(** ** The world: buffer pool, buffers, network, trace *)

(** [free]: the buffers lying in [bufPool]; [out]: the buffers taken
    and not yet put back; [next]: the identity [New] gives to the next
    buffer it allocates; [heap]: the contents of each buffer. *)
Record World : Type := mkWorld {
  free : list nat;
  out : list nat;
  next : nat;
  heap : nat -> list byte;
  net : Net;
  trace : list Event }.

Definition log (ev : Event) (s : World) : World :=
  mkWorld (free s) (out s) (next s) (heap s) (net s) (trace s ++ [ev]).

Definition set_net (n : Net) (s : World) : World :=
  mkWorld (free s) (out s) (next s) (heap s) n (trace s).

Definition set_buf (b : nat) (d : list byte) (s : World) : World :=
  mkWorld (free s) (out s) (next s)
          (fun b' => if Nat.eqb b' b then d else heap s b')
          (net s) (trace s).

Fixpoint remove_one (b : nat) (l : list nat) : list nat :=
  match l with
  | [] => []
  | x :: l' => if Nat.eqb x b then l' else x :: remove_one b l'
  end.

(** [bufPool.Get()]: a pooled buffer when there is one, otherwise the
    buffer [New] allocates, empty. *)
Definition pool_Get (s : World) : nat * World :=
  match free s with
  | b :: rest =>
      (b, log (EvGet b)
            (mkWorld rest (b :: out s) (next s) (heap s) (net s) (trace s)))
  | [] =>
      let b := next s in
      (b, log (EvGet b)
            (set_buf b []
               (mkWorld [] (b :: out s) (S b) (heap s) (net s) (trace s))))
  end.

(** [bufPool.Put(b)]: the buffer goes back with its contents. *)
Definition pool_Put (b : nat) (s : World) : World :=
  log (EvPut b)
    (mkWorld (b :: free s) (remove_one b (out s)) (next s) (heap s)
             (net s) (trace s)).

(** ** Function bodies with early exit and deferred calls *)

Inductive outcome : Type :=
| Return (err : option error)
| Panic (msg : string).

Inductive flow (A : Type) : Type :=
| Next (a : A)
| Exit (o : outcome).

(** The deferred calls of the running function (all of them
    [bufPool.Put(b)], most recent first) and the world. *)
Record Frame : Type := mkFrame {
  deferred : list nat;
  world : World }.

Definition M (A : Type) : Type := Frame -> flow A * Frame.

Definition ret {A} (a : A) : M A := fun f => (Next A a, f).

Definition bind {A B} (c : M A) (k : A -> M B) : M B :=
  fun f =>
    match c f with
    | (Next _ a, f') => k a f'
    | (Exit _ o, f') => (Exit B o, f')
    end.

Definition exit {A} (o : outcome) : M A := fun f => (Exit A o, f).

Definition panic {A} (msg : string) : M A := exit (Panic msg).

Definition upd (g : World -> World) : M unit :=
  fun f => (Next unit tt, mkFrame (deferred f) (g (world f))).

Definition get {A} (g : World -> A) : M A :=
  fun f => (Next A (g (world f)), f).

Definition defer_Put (b : nat) : M unit :=
  fun f => (Next unit tt, mkFrame (b :: deferred f) (world f)).

Fixpoint run_deferred (ds : list nat) (s : World) : World :=
  match ds with
  | [] => s
  | b :: ds' => run_deferred ds' (pool_Put b s)
  end.

(** Running a body: whether it returns or panics, its deferred calls
    run, last deferred first, before the caller sees the outcome. *)
Definition call (body : M outcome) (s : World) : outcome * World :=
  match body (mkFrame [] s) with
  | (Next _ o, f) => (o, run_deferred (deferred f) (world f))
  | (Exit _ o, f) => (o, run_deferred (deferred f) (world f))
  end.

Notation "x <- c1 ;; c2" := (bind c1 (fun x => c2))
  (at level 61, c1 at next level, right associativity).
Notation "c1 ;; c2" := (bind c1 (fun _ => c2))
  (at level 61, right associativity).

(** [if err != nil { return err }] *)
Definition return_if_err (err : option error) : M unit :=
  match err with
  | Some e => exit (Return (Some e))
  | None => ret tt
  end.

(** ** The buffer pool *)

(** [newBuffer]: [bufPool.Get()], then [b.Reset()].  [Get] falls back
    on [New], so the buffer is never [nil] and the branch
    [bytes.NewBuffer(nil)] is not taken. *)
Definition newBuffer : M nat :=
  fun f =>
    let r := pool_Get (world f) in
    (Next nat (fst r), mkFrame (deferred f) (set_buf (fst r) [] (snd r))).

(** [b.Bytes()]: a view of the buffer's contents. *)
Definition Bytes (b : nat) : M slice :=
  get (fun s => mkSlice (Some b) (heap s b)).

Definition buf_append (b : nat) (d : list byte) (s : World) : World :=
  set_buf b (heap s b ++ d) s.

(** ** The calls on collaborators *)

Definition do_MarshalJSONBuf (m : Message) (b : nat) : M (option error) :=
  let r := MarshalJSONBuf env m in
  upd (fun s => buf_append b (fst r) (log (EvMarshal b) s)) ;;
  ret (snd r).

(** The compressor handle: its codec, its level, the buffer it writes to. *)
Record zwriter : Type := mkZW {
  zw_codec : Codec;
  zw_level : Z;
  zw_dst : nat }.

Definition do_NewWriterLevel (c : Codec) (dst : nat) (level : Z)
  : M (zwriter * option error) :=
  upd (log (EvNewWriter c dst level)) ;;
  ret (mkZW c level dst, NewWriterLevel env c level).

Definition do_zw_Write (zw : zwriter) (p : slice) : M (option error) :=
  let r := zw_Write env (zw_codec zw) (zw_level zw) (bytes p) in
  upd (fun s =>
         buf_append (zw_dst zw) (fst r) (log (EvZWrite (zw_codec zw) p) s)) ;;
  ret (snd r).

Definition do_zw_Close (zw : zwriter) (p : slice) (werr : option error)
  : M (option error) :=
  let r := zw_Close env (zw_codec zw) (zw_level zw) (bytes p) werr in
  upd (fun s =>
         buf_append (zw_dst zw) (fst r) (log (EvZClose (zw_codec zw)) s)) ;;
  ret (snd r).

Definition do_conn_Write (w : UDPWriter) (p : slice) : M (Z * option error) :=
  fun f =>
    let s := log (EvConnWrite p) (world f) in
    let r := conn_Write env (conn w) (bytes p) (net s) in
    (Next _ (fst r), mkFrame (deferred f) (set_net (snd r) s)).

Definition do_writeChunked (w : UDPWriter) (p : slice) : M (option error) :=
  fun f =>
    let s := log (EvWriteChunked p) (world f) in
    let r := writeChunked env (conn w) (bytes p) (net s) in
    (Next _ (fst r), mkFrame (deferred f) (set_net (snd r) s)).

(** ** [WriteMessage] *)

(** The locals after the [switch]: [zw], [zBytes] and [err] ([zBuf] is
    the destination of [zw]).  [zw] is an interface variable: in the
    [Gzip] and [Zlib] cases it holds a [*gzip.Writer] or [*zlib.Writer]
    and so differs from [nil] even when the constructor failed and the
    pointer inside is nil; in the [None] case it stays [nil]. *)
Definition compressor_switch (w : UDPWriter) (mBytes : slice)
  : M (option zwriter * slice * option error) :=
  if CompressionType w =? CompressGzip then
    zBuf <- newBuffer ;;
    defer_Put zBuf ;;
    r <- do_NewWriterLevel Gzip zBuf (CompressionLevel w) ;;
    ret (Some (fst r), nil_slice, snd r)
  else if CompressionType w =? CompressZlib then
    zBuf <- newBuffer ;;
    defer_Put zBuf ;;
    r <- do_NewWriterLevel Zlib zBuf (CompressionLevel w) ;;
    ret (Some (fst r), nil_slice, snd r)
  else if CompressionType w =? CompressNone then
    ret (None, mBytes, None)
  else
    panic ("unknown compression type " ++ fmt_d (CompressionType w)).

(** [if zw != nil { ... }] *)
Definition compress (zw : option zwriter) (zBytes : slice)
           (err : option error) (mBytes : slice) : M slice :=
  match zw with
  | Some z =>
      return_if_err err ;;
      werr <- do_zw_Write z mBytes ;;
      match werr with
      | Some e =>
          do_zw_Close z mBytes werr ;;
          exit (Return (Some e))
      | None =>
          do_zw_Close z mBytes werr ;;
          Bytes (zw_dst z)
      end
  | None => ret zBytes
  end.

Definition bad_write (n l : Z) : error :=
  Errorf ("bad write (" ++ fmt_d n ++ "/" ++ fmt_d l ++ ")").

(** From [numChunks(zBytes) > 1] to the end of the function. *)
Definition send (w : UDPWriter) (zBytes : slice) : M outcome :=
  if numChunks (bytes zBytes) >? 1 then
    err <- do_writeChunked w zBytes ;;
    ret (Return err)
  else
    r <- do_conn_Write w zBytes ;;
    return_if_err (snd r) ;;
    if negb (fst r =? len (bytes zBytes)) then
      ret (Return (Some (bad_write (fst r) (len (bytes zBytes)))))
    else
      ret (Return None).

Definition WriteMessage_body (w : UDPWriter) (m : Message) : M outcome :=
  mBuf <- newBuffer ;;
  defer_Put mBuf ;;
  err <- do_MarshalJSONBuf m mBuf ;;
  return_if_err err ;;
  mBytes <- Bytes mBuf ;;
  l <- compressor_switch w mBytes ;;
  zBytes <- compress (fst (fst l)) (snd (fst l)) (snd l) mBytes ;;
  send w zBytes.

Definition WriteMessage (w : UDPWriter) (m : Message)
  : World -> outcome * World :=
  call (WriteMessage_body w m).

(** ** [Write] *)

(** What [Write] hands back: [(n, err)], or the panic that came up
    through it. *)
Inductive write_outcome : Type :=
| WReturn (n : Z) (err : option error)
| WPanic (msg : string).

Definition Write (w : UDPWriter) (p : list byte) (s : World)
  : write_outcome * World :=
  let caller := getCallerIgnoringLogMulti env 1 in
  let file := fst caller in
  let line := snd caller in
  let m := constructMessage env p (hostname w) (Facility w) file line in
  match WriteMessage w m s with
  | (Return (Some e), s') => (WReturn 0 (Some e), s')
  | (Return None, s') => (WReturn (len p) None, s')
  | (Panic msg, s') => (WPanic msg, s')
  end.

(** ** [NewUDPWriter] *)

(** [new(UDPWriter)] zeroes every field, so [CompressionType] starts at
    0; only [CompressionLevel] is assigned before the fields of the
    embedded [Writer]. *)
Definition NewUDPWriter (addr : string) : result UDPWriter :=
  let CompressionLevel0 := flate_BestSpeed in
  let CompressionType0 : CompressType := 0 in
  match net_Dial env "udp" addr with
  | Err _ e => Err _ e
  | Ok _ c =>
      match os_Hostname env with
      | Err _ e => Err _ e
      | Ok _ h =>
          Ok _ (mkUDPWriter c h (path_Base env (os_Args0 env))
                  CompressionLevel0 CompressionType0)
      end
  end.

(** ** Reading a trace *)

Fixpoint acquired (tr : list Event) : list nat :=
  match tr with
  | [] => []
  | EvGet b :: tr' => b :: acquired tr'
  | _ :: tr' => acquired tr'
  end.

Fixpoint released (tr : list Event) : list nat :=
  match tr with
  | [] => []
  | EvPut b :: tr' => b :: released tr'
  | _ :: tr' => released tr'
  end.

(** The payloads handed to the socket, one per [conn.Write]. *)
Fixpoint conn_writes (tr : list Event) : list slice :=
  match tr with
  | [] => []
  | EvConnWrite p :: tr' => p :: conn_writes tr'
  | _ :: tr' => conn_writes tr'
  end.

(** The payloads handed to either sender. *)
Fixpoint sends (tr : list Event) : list slice :=
  match tr with
  | [] => []
  | EvConnWrite p :: tr' => p :: sends tr'
  | EvWriteChunked p :: tr' => p :: sends tr'
  | _ :: tr' => sends tr'
  end.

Fixpoint closes (tr : list Event) : list Codec :=
  match tr with
  | [] => []
  | EvZClose c :: tr' => c :: closes tr'
  | _ :: tr' => closes tr'
  end.

Fixpoint new_writers (tr : list Event) : list (Codec * Z) :=
  match tr with
  | [] => []
  | EvNewWriter c _ level :: tr' => (c, level) :: new_writers tr'
  | _ :: tr' => new_writers tr'
  end.

(** The pool holds each buffer once, and every buffer in it or out of
    it was allocated. *)
Definition pool_wf (s : World) : Prop :=
  NoDup (free s ++ out s) /\
  forall b, In b (free s ++ out s) -> (b < next s)%nat.

End Model.

Arguments Foreign {E} e.
Arguments Errorf {E} msg.
Arguments Ok {E A} a.
Arguments Err {E A} e.
Arguments Return {E} err.
Arguments Panic {E} msg.
Arguments WReturn {E} n err.
Arguments WPanic {E} msg.
Arguments mkEnv {E Message Conn Net}.
Arguments MarshalJSONBuf {E Message Conn Net} e m.
Arguments NewWriterLevel {E Message Conn Net} e c level.
Arguments zw_Write {E Message Conn Net} e c level p.
Arguments zw_Close {E Message Conn Net} e c level p werr.
Arguments conn_Write {E Message Conn Net} e c p n.
Arguments writeChunked {E Message Conn Net} e c p n.
Arguments getCallerIgnoringLogMulti {E Message Conn Net} e skip.
Arguments constructMessage {E Message Conn Net} e p host facility file line.
Arguments net_Dial {E Message Conn Net} e network addr.
Arguments os_Hostname {E Message Conn Net} e.
Arguments os_Args0 {E Message Conn Net} e.
Arguments path_Base {E Message Conn Net} e p.
Arguments mkUDPWriter {Conn}.
Arguments conn {Conn} u.
Arguments hostname {Conn} u.
Arguments Facility {Conn} u.
Arguments CompressionLevel {Conn} u.
Arguments CompressionType {Conn} u.
Arguments mkWorld {Net}.
Arguments free {Net} w.
Arguments out {Net} w.
Arguments next {Net} w.
Arguments heap {Net} w b.
Arguments net {Net} w.
Arguments trace {Net} w.
Arguments pool_Get {Net} s.
Arguments pool_Put {Net} b s.
Arguments pool_wf {Net} s.
Arguments bad_write {E} n l.
Arguments log {Net} ev s.
Arguments set_net {Net} n s.
Arguments set_buf {Net} b d s.
Arguments buf_append {Net} b d s.
Arguments run_deferred {Net} ds s.
Arguments mkFrame {Net}.
Arguments deferred {Net} f.
Arguments world {Net} f.
Arguments Next {E A} a.
Arguments Exit {E A} o.
Arguments ret {E Net A} a.
Arguments bind {E Net A B} c k.
Arguments exit {E Net A} o.
Arguments panic {E Net A} msg.
Arguments upd {E Net} g.
Arguments get {E Net A} g.
Arguments defer_Put {E Net} b.
Arguments call {E Net} body s.
Arguments return_if_err {E Net} err.
Arguments newBuffer {E Net}.
Arguments Bytes {E Net} b.
Arguments do_MarshalJSONBuf {E Message Conn Net} env m b.
Arguments do_NewWriterLevel {E Message Conn Net} env c dst level.
Arguments do_zw_Write {E Message Conn Net} env zw p.
Arguments do_zw_Close {E Message Conn Net} env zw p werr.
Arguments do_conn_Write {E Message Conn Net} env w p.
Arguments do_writeChunked {E Message Conn Net} env w p.
Arguments compressor_switch {E Message Conn Net} env w mBytes.
Arguments compress {E Message Conn Net} env zw zBytes err mBytes.
Arguments send {E Message Conn Net} env w zBytes.
Arguments WriteMessage_body {E Message Conn Net} env w m.
Arguments WriteMessage {E Message Conn Net} env w m s.
Arguments Write {E Message Conn Net} env w p s.
Arguments NewUDPWriter {E Message Conn Net} env addr.

(** ** Observing one call *)

Section Observers.

Context {E Message Conn Net : Type}.
Variable env : Env E Message Conn Net.

Definition outcome_of (w : UDPWriter Conn) (m : Message) (s : World Net)
  : outcome E :=
  fst (WriteMessage env w m s).

Definition world_after (w : UDPWriter Conn) (m : Message) (s : World Net)
  : World Net :=
  snd (WriteMessage env w m s).

(** The events one call of [WriteMessage] adds to the trace. *)
Definition events_of (w : UDPWriter Conn) (m : Message) (s : World Net)
  : list Event :=
  skipn (List.length (trace s)) (trace (world_after w m s)).

(** The serialized record: the bytes [MarshalJSONBuf] leaves in the
    buffer it was given empty. *)
Definition serialized (m : Message) : list byte :=
  fst (MarshalJSONBuf env m).

(** The codec a [CompressionType] selects, if any. *)
Definition codec_of (t : CompressType) : option Codec :=
  if t =? CompressGzip then Some Gzip
  else if t =? CompressZlib then Some Zlib
  else None.

(** The payload [WriteMessage] holds in [zBytes] when it reaches the
    call of [numChunks], if it gets that far: the serialized record
    as it is for [CompressNone], what the write and the close of the
    compressor left in the scratch buffer for the two codecs. *)
Definition compressed (w : UDPWriter Conn) (m : Message)
  : option (list byte) :=
  match snd (MarshalJSONBuf env m) with
  | Some _ => None
  | None =>
      match codec_of (CompressionType w) with
      | Some c =>
          match NewWriterLevel env c (CompressionLevel w) with
          | Some _ => None
          | None =>
              let wr := zw_Write env c (CompressionLevel w) (serialized m) in
              match snd wr with
              | Some _ => None
              | None =>
                  Some (fst wr ++
                        fst (zw_Close env c (CompressionLevel w)
                               (serialized m) None))
              end
          end
      | None =>
          if CompressionType w =? CompressNone then Some (serialized m)
          else None
      end
  end.

(** The buffer [WriteMessage] takes first, for the serialized record. *)
Definition mBuf_of (s : World Net) : nat := fst (pool_Get s).

(** The buffer it takes next, as scratch space for a compressor. *)
Definition zBuf_of (s : World Net) : nat :=
  fst (pool_Get (snd (pool_Get s))).

(** The record [Write] builds from its input. *)
Definition message_of (w : UDPWriter Conn) (p : list byte) : Message :=
  constructMessage env p (hostname w) (Facility w)
    (fst (getCallerIgnoringLogMulti env 1))
    (snd (getCallerIgnoringLogMulti env 1)).

(** The state of a running body between two of its statements, for a
    call entered in world [s0]: every buffer taken so far has its put
    deferred, and none was put back yet. *)
Definition balanced (s0 : World Net) (f : Frame Net) : Prop :=
  exists tr,
    trace (world f) = trace s0 ++ tr /\
    acquired tr = rev (deferred f) /\
    released tr = [] /\
    out (world f) = deferred f ++ out s0 /\
    pool_wf (world f).

(** A computation that keeps a running body in such a state. *)
Definition keeps {A} (s0 : World Net) (c : M E Net A) : Prop :=
  forall f, balanced s0 f -> balanced s0 (snd (c f)).

(** The environment whose compressors never report an error from
    [Close], and are otherwise those of [env]. *)
Definition silence_Close : Env E Message Conn Net :=
  mkEnv (MarshalJSONBuf env) (NewWriterLevel env) (zw_Write env)
        (fun c level p werr => (fst (zw_Close env c level p werr), None))
        (conn_Write env) (writeChunked env)
        (getCallerIgnoringLogMulti env) (constructMessage env)
        (net_Dial env) (os_Hostname env) (os_Args0 env) (path_Base env).

End Observers.

(** ** [WriteMessage] without the pool

    What a call returns and does to the network, written as a function
    of the record, the writer and the network alone. *)

Section Plan.

Context {E Message Conn Net : Type}.
Variable env : Env E Message Conn Net.

(** Up to the call of [numChunks]: either the outcome the call leaves
    with, or the payload it goes on to send. *)
Definition codec_plan (w : UDPWriter Conn) (m : Message) (c : Codec)
  : outcome E + list byte :=
  match NewWriterLevel env c (CompressionLevel w) with
  | Some e => inl (Return (Some e))
  | None =>
      let wr := zw_Write env c (CompressionLevel w) (serialized env m) in
      match snd wr with
      | Some e => inl (Return (Some e))
      | None =>
          inr (fst wr ++
               fst (zw_Close env c (CompressionLevel w) (serialized env m) None))
      end
  end.

Definition plan (w : UDPWriter Conn) (m : Message) : outcome E + list byte :=
  match snd (MarshalJSONBuf env m) with
  | Some e => inl (Return (Some e))
  | None =>
      if CompressionType w =? CompressGzip then codec_plan w m Gzip
      else if CompressionType w =? CompressZlib then codec_plan w m Zlib
      else if CompressionType w =? CompressNone then inr (serialized env m)
      else inl (Panic ("unknown compression type " ++
                       fmt_d (CompressionType w)))
  end.

(** From the call of [numChunks] on, for the payload [z] and the
    network [n]. *)
Definition send_outcome (w : UDPWriter Conn) (z : list byte) (n : Net)
  : outcome E :=
  if numChunks z >? 1 then Return (fst (writeChunked env (conn w) z n))
  else
    match fst (conn_Write env (conn w) z n) with
    | (_, Some e) => Return (Some e)
    | (k, None) =>
        if k =? len z then Return None
        else Return (Some (bad_write k (len z)))
    end.

Definition send_net (w : UDPWriter Conn) (z : list byte) (n : Net) : Net :=
  if numChunks z >? 1 then snd (writeChunked env (conn w) z n)
  else snd (conn_Write env (conn w) z n).

(** What the compressor leaves in the scratch buffer when the write
    works: the output of the write, then the output of the close. *)
Definition codec_output (w : UDPWriter Conn) (m : Message) (c : Codec)
  : list byte :=
  fst (zw_Write env c (CompressionLevel w) (serialized env m)) ++
  fst (zw_Close env c (CompressionLevel w) (serialized env m) None).

(** One [Write] after the other, on the same writer. *)
Fixpoint Write_all (w : UDPWriter Conn) (ps : list (list byte))
         (s : World Net) : list (write_outcome E) * World Net :=
  match ps with
  | [] => ([], s)
  | p :: ps' =>
      let r := Write env w p s in
      let rs := Write_all w ps' (snd r) in
      (fst r :: fst rs, snd rs)
  end.

End Plan.

(** ** A concrete environment

    Errors are strings; a message either serializes to given bytes or
    does not serialize; the network is the list of datagrams sent.
    Connection 0 delivers, connection 1 refuses, connection 2 delivers one
    byte less than asked without reporting an error.  The compressors
    reject the levels outside [-2 .. 9], as Go's do, and otherwise fail
    on write and on close as the two parameters say. *)

Module Demo.

Inductive Msg : Type :=
| Serializable (p : list byte)
| Unserializable.

Definition err (s : string) : option (error string) := Some (Foreign s).

Definition marshal (m : Msg) : list byte * option (error string) :=
  match m with
  | Serializable p => (p, None)
  | Unserializable => ([], err "json: unsupported value")
  end.

Definition new_writer (c : Codec) (level : Z) : option (error string) :=
  if (level <? -2) || (9 <? level)
  then Some (Errorf ("invalid compression level: " ++ fmt_d level))
  else None.

Definition magic (c : Codec) : list byte :=
  match c with Gzip => magicGzip | Zlib => magicZlib end.

Definition socket (c : nat) (p : list byte) (n : list (list byte))
  : (Z * option (error string)) * list (list byte) :=
  match c with
  | O => ((len p, None), n ++ [p])
  | S O => ((0, err "connection refused"), n)
  | _ => ((len p - 1, None), n ++ [removelast p])
  end.

Definition chunked (c : nat) (p : list byte) (n : list (list byte))
  : option (error string) * list (list byte) :=
  match c with
  | S O => (err "connection refused", n)
  | _ => (None, n ++ [magicChunked ++ p])
  end.

Definition env (write_err close_err : option (error string))
  : Env string Msg nat (list (list byte)) :=
  mkEnv marshal new_writer
        (fun c _ p => (magic c ++ p, write_err))
        (fun _ _ _ _ => ([Byte.x00], close_err))
        socket chunked
        (fun _ => ("main.go"%string, 42))
        (fun p _ _ _ _ => Serializable p)
        (fun _ addr => if String.eqb addr "" then Err (Errorf "missing address")
                       else Ok O)
        (Ok "localhost"%string)
        "/usr/bin/app"%string
        (fun p => p).

Definition writer (c : nat) (level : Z) (t : CompressType) : UDPWriter nat :=
  mkUDPWriter c "localhost"%string "app"%string level t.

(** An empty pool, nothing sent, nothing traced. *)
Definition world0 : World (list (list byte)) :=
  mkWorld [] [] 0%nat (fun _ => []) [] [].

(** A pool that holds buffers 0 and 1 with stale contents. *)
Definition world1 : World (list (list byte)) :=
  mkWorld [0%nat; 1%nat] [] 2%nat (fun _ => [Byte.xff; Byte.xff]) [] [].

Definition hello : list byte :=
  [Byte.x68; Byte.x65; Byte.x6c; Byte.x6c; Byte.x6f].

(** Compressors that work. *)
Definition sound := env None None.

(** Compressors whose close fails after a write that worked. *)
Definition close_fails := env None (err "close failed").

(** Compressors whose write fails, and whose close then fails too. *)
Definition both_fail := env (err "write failed") (err "close failed").

End Demo.

(** * Properties *)

(** ** The chunk planner *)

Lemma len_nonneg b : 0 <= len b.
Proof. unfold len. lia. Qed.

Lemma len_zeros n : len (zeros n) = Z.of_nat n.
Proof. unfold len, zeros. now rewrite repeat_length. Qed.

Lemma chunkedDataLen_val : chunkedDataLen = 1408.
Proof. reflexivity. Qed.

Lemma numChunks_small b : len b <= ChunkSize -> numChunks b = 1.
Proof.
  intros H. unfold numChunks. cbv zeta.
  destruct (Z.leb_spec (len b) ChunkSize); [reflexivity | lia].
Qed.

Lemma numChunks_large b :
  ChunkSize < len b -> numChunks b = len b / chunkedDataLen + 1.
Proof.
  intros H. unfold numChunks. cbv zeta.
  destruct (Z.leb_spec (len b) ChunkSize); [lia |].
  rewrite Z.quot_div_nonneg; [reflexivity | apply len_nonneg | reflexivity].
Qed.

Lemma numChunks_pos b : 1 <= numChunks b.
Proof.
  destruct (Z_le_gt_dec (len b) ChunkSize) as [H | H].
  - rewrite numChunks_small by assumption. lia.
  - rewrite numChunks_large by lia.
    assert (0 <= len b / chunkedDataLen) by (apply Z.div_pos; [apply len_nonneg | reflexivity]).
    lia.
Qed.

(** The ceiling, split on whether the divisor divides. *)
Lemma ceil_div_cases n d :
  0 < d -> 0 <= n ->
  ceil_div n d = if n mod d =? 0 then n / d else n / d + 1.
Proof.
  intros Hd Hn. unfold ceil_div.
  pose proof (Z.div_mod n d ltac:(lia)) as Hdm.
  pose proof (Z.mod_pos_bound n d Hd) as Hb.
  destruct (Z.eqb_spec (n mod d) 0) as [E0 | N0].
  - symmetry. apply (Z.div_unique _ _ _ (d - 1)); [lia |].
    rewrite E0 in Hdm. lia.
  - symmetry. apply (Z.div_unique _ _ _ (n mod d - 1)); [lia |].
    lia.
Qed.

(** Above [ChunkSize] the planner agrees with the ceiling exactly on the
    lengths that [chunkedDataLen] does not divide; on a multiple it
    counts one chunk more. *)
Lemma numChunks_vs_ceiling b :
  ChunkSize < len b ->
  numChunks b =
    if len b mod chunkedDataLen =? 0
    then ceil_div (len b) chunkedDataLen + 1
    else ceil_div (len b) chunkedDataLen.
Proof.
  intros H. rewrite numChunks_large by assumption.
  rewrite ceil_div_cases by (first [reflexivity | apply len_nonneg]).
  destruct (len b mod chunkedDataLen =? 0); reflexivity.
Qed.

(** The planner has no upper bound of its own: the count passes 255 at
    [255 * chunkedDataLen] bytes. *)
Lemma numChunks_le_255_iff b :
  numChunks b <= 255 <-> len b < 255 * chunkedDataLen.
Proof.
  rewrite chunkedDataLen_val.
  destruct (Z_le_gt_dec (len b) ChunkSize) as [H | H].
  - rewrite numChunks_small by assumption. unfold ChunkSize in H. lia.
  - rewrite numChunks_large by lia. rewrite chunkedDataLen_val.
    pose proof (Z.div_mod (len b) 1408 ltac:(lia)) as Hdm.
    pose proof (Z.mod_pos_bound (len b) 1408 ltac:(lia)) as Hb.
    lia.
Qed.

Lemma numChunks_unbounded (n : Z) : exists b, n < numChunks b.
Proof.
  exists (zeros (Z.to_nat (Z.max n 2 * chunkedDataLen))).
  rewrite chunkedDataLen_val.
  assert (Hl : len (zeros (Z.to_nat (Z.max n 2 * 1408))) = Z.max n 2 * 1408)
    by (rewrite len_zeros; lia).
  rewrite numChunks_large by (rewrite Hl; unfold ChunkSize; lia).
  rewrite Hl, chunkedDataLen_val, Z.div_mul by lia. lia.
Qed.

(** C1 (failing input).  On a payload of 2816 = 2 * 1408 bytes, which is
    above [ChunkSize], [numChunks] returns 3, while the ceiling of
    2816 / 1408, the number of chunks the payload needs, is 2. *)
Theorem numChunks_at_2816 :
  len (zeros 2816) = 2816 /\
  ChunkSize < len (zeros 2816) /\
  numChunks (zeros 2816) = 3 /\
  ceil_div (len (zeros 2816)) (ChunkSize - 12) = 2.
Proof. vm_compute. repeat split; reflexivity. Qed.

(** ** Reading the world after each operation *)

#[local] Arguments log : simpl never.
#[local] Arguments set_buf : simpl never.
#[local] Arguments buf_append : simpl never.
#[local] Arguments set_net : simpl never.
#[local] Arguments pool_Get : simpl never.
#[local] Arguments pool_Put : simpl never.
#[local] Arguments numChunks : simpl never.
#[local] Arguments len : simpl never.
#[local] Arguments fmt_d : simpl never.
#[local] Arguments String.append : simpl never.
#[local] Arguments bad_write : simpl never.
#[local] Arguments serialized : simpl never.

Lemma skipn_length_app {A} (l r : list A) :
  skipn (List.length l) (l ++ r) = r.
Proof. induction l as [| x l IH]; simpl; auto. Qed.

Section WorldFacts.

Context {Net : Type}.
Implicit Types (s : World Net) (b : nat) (d : list byte) (ev : Event).

Lemma trace_log ev s : trace (log ev s) = trace s ++ [ev].
Proof. reflexivity. Qed.

Lemma trace_set_buf b d s : trace (set_buf b d s) = trace s.
Proof. reflexivity. Qed.

Lemma trace_buf_append b d s : trace (buf_append b d s) = trace s.
Proof. reflexivity. Qed.

Lemma trace_set_net (n : Net) s : trace (set_net n s) = trace s.
Proof. reflexivity. Qed.

Lemma trace_pool_Put b s : trace (pool_Put b s) = trace s ++ [EvPut b].
Proof. reflexivity. Qed.

Lemma trace_pool_Get s :
  trace (snd (pool_Get s)) = trace s ++ [EvGet (fst (pool_Get s))].
Proof. unfold pool_Get. destruct (free s); reflexivity. Qed.

Lemma net_log ev s : net (log ev s) = net s.
Proof. reflexivity. Qed.

Lemma net_set_buf b d s : net (set_buf b d s) = net s.
Proof. reflexivity. Qed.

Lemma net_buf_append b d s : net (buf_append b d s) = net s.
Proof. reflexivity. Qed.

Lemma net_pool_Get s : net (snd (pool_Get s)) = net s.
Proof. unfold pool_Get. destruct (free s); reflexivity. Qed.

Lemma Get_log ev s : fst (pool_Get (log ev s)) = fst (pool_Get s).
Proof. unfold pool_Get, log. simpl. destruct (free s); reflexivity. Qed.

Lemma Get_set_buf b d s : fst (pool_Get (set_buf b d s)) = fst (pool_Get s).
Proof. unfold pool_Get, set_buf. simpl. destruct (free s); reflexivity. Qed.

Lemma Get_buf_append b d s :
  fst (pool_Get (buf_append b d s)) = fst (pool_Get s).
Proof. unfold buf_append. apply Get_set_buf. Qed.

Lemma heap_log ev s b : heap (log ev s) b = heap s b.
Proof. reflexivity. Qed.

Lemma heap_set_net (n : Net) s b : heap (set_net n s) b = heap s b.
Proof. reflexivity. Qed.

Lemma heap_set_buf_same b d s : heap (set_buf b d s) b = d.
Proof. unfold set_buf. simpl. now rewrite Nat.eqb_refl. Qed.

Lemma heap_buf_append_same b d s :
  heap (buf_append b d s) b = heap s b ++ d.
Proof. unfold buf_append. apply heap_set_buf_same. Qed.

End WorldFacts.

Create Rewrite HintDb world.

#[local] Hint Rewrite
  @trace_log @trace_set_buf @trace_buf_append @trace_set_net @trace_pool_Put
  @trace_pool_Get @net_log @net_set_buf @net_buf_append @net_pool_Get
  @Get_log @Get_set_buf @Get_buf_append
  @heap_log @heap_set_net @heap_set_buf_same @heap_buf_append_same
  @app_nil_l : world.

(** Unfold one call of [WriteMessage] down to the operations on the
    world. *)
Ltac run :=
  unfold outcome_of, events_of, world_after, WriteMessage, call,
    WriteMessage_body, compressor_switch, compress, send, return_if_err,
    panic, do_MarshalJSONBuf, do_NewWriterLevel, do_zw_Write, do_zw_Close,
    do_conn_Write, do_writeChunked, newBuffer, Bytes, defer_Put, bind, ret,
    exit, upd, get;
  cbn;
  repeat match goal with
    | |- context [fst (MarshalJSONBuf ?e ?m)] =>
        change (fst (MarshalJSONBuf e m)) with (serialized e m)
    end.

(** Case split on the test [numChunks(zBytes) > 1]. *)
Ltac split_chunked :=
  match goal with
  | |- context [numChunks ?z >? 1] =>
      let H := fresh "Hn" in destruct (numChunks z >? 1) eqn:H
  end.

(** Case split on the error of the socket write, then on the count. *)
Ltac split_conn_Write :=
  match goal with
  | |- context [snd (fst (conn_Write ?e ?c ?p ?n))] =>
      let H := fresh "Hc" in
      destruct (snd (fst (conn_Write e c p n))) eqn:H; cbn;
      [| match goal with
         | |- context [negb ?t] =>
             let H' := fresh "Hl" in destruct t eqn:H'; cbn
         end ]
  end.

(** Read the events off the world a run ended in. *)
Ltac events :=
  autorewrite with world; rewrite <- ?app_assoc;
  rewrite ?skipn_length_app; cbn.

(** Settle the three tests of the [switch] from what is known of the
    compression type. *)
Ltac test_eq a b :=
  let H := fresh "Ht" in
  destruct (Z.eq_dec a b) as [H | H];
  [ try rewrite (proj2 (Z.eqb_eq a b) H) in *
  | try rewrite (proj2 (Z.eqb_neq a b) H) in * ].

Ltac switch_on t :=
  unfold compressed, codec_of in *;
  test_eq t CompressGzip;
  [| test_eq t CompressZlib; [| test_eq t CompressNone]];
  try discriminate; try contradiction; try congruence.

(** ** [WriteMessage], path by path *)

Section WriteMessagePaths.

Context {E Message Conn Net : Type}.
Variable env : Env E Message Conn Net.
Implicit Types (w : UDPWriter Conn) (m : Message) (s : World Net).

(** When serialization fails, its error is returned at once, whatever
    the compression type, and nothing is sent. *)
Lemma marshal_error_returned w m s e :
  snd (MarshalJSONBuf env m) = Some e ->
  outcome_of env w m s = Return (Some e) /\
  events_of env w m s =
    [EvGet (mBuf_of s); EvMarshal (mBuf_of s); EvPut (mBuf_of s)].
Proof.
  intros Hm. run. rewrite Hm. cbn. split; [reflexivity |].
  events. reflexivity.
Qed.

(** C8 (amended).  With a compression type other than Gzip, Zlib and
    None, a call whose record serializes panics with the message
    "unknown compression type <n>", after the buffer of the record went
    back to the pool and without any send; a call whose record does
    not serialize returns the serialization error instead. *)
Theorem unknown_compression_type w m s :
  CompressionType w <> CompressGzip ->
  CompressionType w <> CompressZlib ->
  CompressionType w <> CompressNone ->
  (snd (MarshalJSONBuf env m) = None ->
     outcome_of env w m s =
       Panic ("unknown compression type " ++ fmt_d (CompressionType w)) /\
     events_of env w m s =
       [EvGet (mBuf_of s); EvMarshal (mBuf_of s); EvPut (mBuf_of s)]) /\
  (forall e, snd (MarshalJSONBuf env m) = Some e ->
     outcome_of env w m s = Return (Some e)).
Proof.
  intros H0 H1 H2. split.
  - intros Hm. run. rewrite Hm. cbn.
    switch_on (CompressionType w). cbn.
    split; [reflexivity |]. events. reflexivity.
  - intros e Hm. apply marshal_error_returned, Hm.
Qed.

(** C7.  With [CompressNone] no compressor is made and no scratch buffer
    is taken; when the record serializes, one payload goes to the
    sender, and it is the view [mBuf.Bytes()] of the record's own
    buffer, holding exactly the serialized bytes; when it does not,
    nothing is sent. *)
Theorem none_sends_serialized_bytes w m s :
  CompressionType w = CompressNone ->
  new_writers (events_of env w m s) = [] /\
  acquired (events_of env w m s) = [mBuf_of s] /\
  sends (events_of env w m s) =
    match snd (MarshalJSONBuf env m) with
    | Some _ => []
    | None => [mkSlice (Some (mBuf_of s)) (serialized env m)]
    end.
Proof.
  intros Ht. run. rewrite Ht. cbn.
  destruct (snd (MarshalJSONBuf env m)) as [e |]; cbn.
  - events. auto.
  - autorewrite with world. split_chunked; cbn.
    + events. auto.
    + autorewrite with world. split_conn_Write; events; auto.
Qed.

(** A failing constructor: its error is returned, nothing is written
    to a compressor and nothing is sent. *)
Lemma constructor_error_returned w m s c e :
  codec_of (CompressionType w) = Some c ->
  snd (MarshalJSONBuf env m) = None ->
  NewWriterLevel env c (CompressionLevel w) = Some e ->
  outcome_of env w m s = Return (Some e) /\
  events_of env w m s =
    [EvGet (mBuf_of s); EvMarshal (mBuf_of s); EvGet (zBuf_of s);
     EvNewWriter c (zBuf_of s) (CompressionLevel w);
     EvPut (zBuf_of s); EvPut (mBuf_of s)].
Proof.
  intros Hc Hm Hn. run. rewrite Hm. cbn.
  switch_on (CompressionType w); injection Hc as <-; cbn;
    rewrite Hn; cbn; (split; [reflexivity |]); events; reflexivity.
Qed.

(** C5.  When the write to the compressor fails, the compressor is
    closed all the same, right after the write, and the call returns
    the error of the write whatever the close reports; nothing is
    sent. *)
Theorem write_error_closes_compressor w m s c e :
  codec_of (CompressionType w) = Some c ->
  snd (MarshalJSONBuf env m) = None ->
  NewWriterLevel env c (CompressionLevel w) = None ->
  snd (zw_Write env c (CompressionLevel w) (serialized env m)) = Some e ->
  outcome_of env w m s = Return (Some e) /\
  closes (events_of env w m s) = [c] /\
  events_of env w m s =
    [EvGet (mBuf_of s); EvMarshal (mBuf_of s); EvGet (zBuf_of s);
     EvNewWriter c (zBuf_of s) (CompressionLevel w);
     EvZWrite c (mkSlice (Some (mBuf_of s)) (serialized env m));
     EvZClose c;
     EvPut (zBuf_of s); EvPut (mBuf_of s)].
Proof.
  intros Hc Hm Hn Hw. run. rewrite Hm. cbn.
  switch_on (CompressionType w); injection Hc as <-; cbn;
    rewrite Hn; cbn; autorewrite with world; rewrite Hw; cbn;
    (split; [reflexivity |]); events; auto.
Qed.

(** What reaches the senders is the payload [compressed] describes. *)
Lemma sends_compressed w m s :
  sends (events_of env w m s) =
    match compressed env w m with
    | Some z =>
        [mkSlice (Some (match codec_of (CompressionType w) with
                        | Some _ => zBuf_of s
                        | None => mBuf_of s
                        end)) z]
    | None => []
    end.
Proof.
  unfold compressed. run.
  destruct (snd (MarshalJSONBuf env m)) as [e |] eqn:Hm; cbn.
  { events. reflexivity. }
  switch_on (CompressionType w); cbn.
  3: autorewrite with world; split_chunked; cbn;
     [| autorewrite with world; split_conn_Write]; events; reflexivity.
  3: events; reflexivity.
  all: destruct (NewWriterLevel env _ (CompressionLevel w)) as [e |] eqn:Hnew;
    cbn; [events; reflexivity |];
    autorewrite with world;
    destruct (snd (zw_Write env _ (CompressionLevel w) (serialized env m)))
      as [e |] eqn:Hw; cbn; [events; reflexivity |];
    autorewrite with world; split_chunked; cbn;
    [| autorewrite with world; split_conn_Write]; events; reflexivity.
Qed.

(** C6 (amended).  On the single-datagram path the payload goes to the
    socket in one write, and to no other sender; an error of that
    write is returned as it is, whatever the count; without an error,
    a count [n] other than the length of the payload gives the error
    "bad write (n/len)", and the right count gives [nil]. *)
Theorem direct_send w m s z :
  compressed env w m = Some z ->
  numChunks z = 1 ->
  (exists b,
     conn_writes (events_of env w m s) = [mkSlice (Some b) z] /\
     sends (events_of env w m s) = [mkSlice (Some b) z]) /\
  outcome_of env w m s =
    match fst (conn_Write env (conn w) z (net s)) with
    | (_, Some e) => Return (Some e)
    | (n, None) =>
        if n =? len z then Return None
        else Return (Some (bad_write n (len z)))
    end.
Proof.
  intros Hz Hone.
  assert (Hgt : (numChunks z >? 1) = false) by (rewrite Hone; reflexivity).
  revert Hz. unfold compressed. run.
  destruct (snd (MarshalJSONBuf env m)) as [e |] eqn:Hm; [discriminate |].
  cbn. switch_on (CompressionType w); cbn.
  3: { intros [= <-]. autorewrite with world. rewrite Hgt. cbn.
       autorewrite with world.
       destruct (conn_Write env (conn w) (serialized env m) (net s))
         as [[n [e |]] nt]; cbn;
         [| destruct (n =? len (serialized env m)); cbn];
         (split; [eexists; split |]); events; reflexivity. }
  all: destruct (NewWriterLevel env _ (CompressionLevel w)) as [e |] eqn:Hnew;
    [discriminate |]; cbn; autorewrite with world;
    destruct (snd (zw_Write env _ (CompressionLevel w) (serialized env m)))
      as [e |] eqn:Hw; [discriminate |]; cbn;
    intros [= <-]; autorewrite with world; rewrite Hgt; cbn;
    autorewrite with world;
    match goal with
    | |- context [conn_Write ?e ?c ?p ?n] =>
        destruct (conn_Write e c p n) as [[k [e' |]] nt]; cbn;
        [| destruct (k =? len p); cbn]
    end;
    (split; [eexists; split |]); events; reflexivity.
Qed.

(** A payload that [numChunks] counts as more than one chunk goes to
    [writeChunked] as it is, whatever the count, and the call returns
    what [writeChunked] returns: [WriteMessage] puts no bound on the
    count. *)
Lemma chunked_dispatch w m s z :
  compressed env w m = Some z ->
  1 < numChunks z ->
  (exists b,
     sends (events_of env w m s) = [mkSlice (Some b) z] /\
     In (EvWriteChunked (mkSlice (Some b) z)) (events_of env w m s)) /\
  conn_writes (events_of env w m s) = [] /\
  outcome_of env w m s = Return (fst (writeChunked env (conn w) z (net s))).
Proof.
  intros Hz Hmany.
  assert (Hgt : (numChunks z >? 1) = true)
    by (apply Z.gtb_lt; lia).
  revert Hz. unfold compressed. run.
  destruct (snd (MarshalJSONBuf env m)) as [e |] eqn:Hm; [discriminate |].
  cbn. switch_on (CompressionType w); cbn.
  3: { intros [= <-]. autorewrite with world. rewrite Hgt. cbn.
       autorewrite with world.
       split; [eexists; split | split]; events; auto 10 using in_eq, in_cons. }
  all: destruct (NewWriterLevel env _ (CompressionLevel w)) as [e |] eqn:Hnew;
    [discriminate |]; cbn; autorewrite with world;
    destruct (snd (zw_Write env _ (CompressionLevel w) (serialized env m)))
      as [e |] eqn:Hw; [discriminate |]; cbn;
    intros [= <-]; autorewrite with world; rewrite Hgt; cbn;
    autorewrite with world;
    (split; [eexists; split | split]); events;
    auto 12 using in_eq, in_cons.
Qed.

End WriteMessagePaths.

(** ** The buffer pool across one call *)

Section TraceFacts.

Lemma acquired_app (t1 t2 : list Event) :
  acquired (t1 ++ t2) = acquired t1 ++ acquired t2.
Proof.
  induction t1 as [| ev t1 IH]; [reflexivity |].
  destruct ev; simpl; rewrite IH; reflexivity.
Qed.

Lemma released_app (t1 t2 : list Event) :
  released (t1 ++ t2) = released t1 ++ released t2.
Proof.
  induction t1 as [| ev t1 IH]; [reflexivity |].
  destruct ev; simpl; rewrite IH; reflexivity.
Qed.

Lemma acquired_puts (ds : list nat) : acquired (map EvPut ds) = [].
Proof. induction ds; simpl; auto. Qed.

Lemma released_puts (ds : list nat) : released (map EvPut ds) = ds.
Proof. induction ds; simpl; congruence. Qed.

End TraceFacts.

Section PoolBalance.

Context {E Message Conn Net : Type}.
Variable env : Env E Message Conn Net.
Implicit Types (s : World Net) (f : Frame Net).

Lemma pool_wf_Get s : pool_wf s -> pool_wf (snd (pool_Get s)).
Proof.
  unfold pool_wf, pool_Get, log, set_buf. intros [Hnd Hlt].
  destruct (free s) as [| b rest] eqn:Hfree; cbn in *.
  - split.
    + constructor; [| assumption].
      intros Hin. apply Hlt in Hin. lia.
    + intros b [<- | Hin]; [lia |]. apply Hlt in Hin. lia.
  - split.
    + apply (Permutation_NoDup (l := b :: rest ++ out s)); [| assumption].
      apply Permutation_middle.
    + intros x Hin. apply Hlt.
      apply in_app_or in Hin. destruct Hin as [Hin | [<- | Hin]].
      * right. apply in_or_app. now left.
      * now left.
      * right. apply in_or_app. now right.
Qed.

Lemma out_Get s : out (snd (pool_Get s)) = fst (pool_Get s) :: out s.
Proof. unfold pool_Get, log, set_buf. destruct (free s); reflexivity. Qed.

(** The deferred puts, run in order, give back the buffers that head
    the list of those taken. *)
Lemma run_deferred_spec (ds : list nat) :
  forall s o,
    out s = ds ++ o -> pool_wf s ->
    trace (run_deferred ds s) = trace s ++ map EvPut ds /\
    out (run_deferred ds s) = o /\
    pool_wf (run_deferred ds s).
Proof.
  induction ds as [| b ds IH]; intros s o Hout Hwf; simpl.
  - rewrite app_nil_r. auto.
  - destruct (IH (pool_Put b s) o) as (Ht & Ho & Hw).
    + unfold pool_Put, log. cbn. rewrite Hout. simpl.
      now rewrite Nat.eqb_refl.
    + destruct Hwf as [Hnd Hlt]. unfold pool_wf, pool_Put, log. cbn.
      rewrite Hout in *. simpl. rewrite Nat.eqb_refl. split.
      * constructor.
        -- apply NoDup_remove_2 in Hnd. exact Hnd.
        -- apply NoDup_remove_1 in Hnd. exact Hnd.
      * intros x [<- | Hin]; apply Hlt, in_or_app.
        -- right. now left.
        -- apply in_app_or in Hin. destruct Hin; [now left |].
           right. now right.
    + rewrite Ht, Ho. rewrite trace_pool_Put, <- app_assoc.
      split; [reflexivity | split; [reflexivity | exact Hw]].
Qed.

Lemma balanced_start s0 : pool_wf s0 -> balanced s0 (mkFrame [] s0).
Proof. intros H. exists []. cbn. rewrite app_nil_r. auto. Qed.

(** A step that leaves the pool alone and logs at most quiet events. *)
Lemma balanced_quiet s0 f s' evs :
  balanced s0 f ->
  free s' = free (world f) -> out s' = out (world f) ->
  next s' = next (world f) ->
  trace s' = trace (world f) ++ evs ->
  acquired evs = [] -> released evs = [] ->
  balanced s0 (mkFrame (deferred f) s').
Proof.
  intros (tr & Ht & Ha & Hr & Ho & Hw) Hf Hout Hn Htr Hqa Hqr.
  exists (tr ++ evs). cbn. split; [| split; [| split; [| split]]].
  - rewrite Htr, Ht, app_assoc. reflexivity.
  - rewrite acquired_app, Hqa, app_nil_r. exact Ha.
  - rewrite released_app, Hr, Hqr. reflexivity.
  - rewrite Hout. exact Ho.
  - unfold pool_wf in *. rewrite Hf, Hout, Hn. exact Hw.
Qed.

Lemma keeps_ret {A} s0 (a : A) : keeps s0 (@ret E Net A a).
Proof. intros f H. exact H. Qed.

Lemma keeps_exit {A} s0 o : keeps s0 (@exit E Net A o).
Proof. intros f H. exact H. Qed.

Lemma keeps_bind {A B} s0 (c : M E Net A) (k : A -> M E Net B) :
  keeps s0 c -> (forall a, keeps s0 (k a)) -> keeps s0 (bind c k).
Proof.
  intros Hc Hk f Hf. unfold bind. specialize (Hc f Hf).
  destruct (c f) as [[a | o] f']; cbn in *; [apply Hk |]; assumption.
Qed.

Lemma keeps_return_if_err s0 (err : option (error E)) :
  keeps s0 (@return_if_err E Net err).
Proof. destruct err; [apply keeps_exit | apply keeps_ret]. Qed.

Lemma keeps_Bytes s0 b : keeps s0 (@Bytes E Net b).
Proof. intros f H. destruct f. exact H. Qed.

(** Taking a buffer and deferring its put. *)
Lemma keeps_newBuffer_defer {A} s0 (k : nat -> M E Net A) :
  (forall b, keeps s0 (k b)) ->
  keeps s0 (bind newBuffer (fun b => bind (defer_Put b) (fun _ => k b))).
Proof.
  intros Hk f (tr & Ht & Ha & Hr & Ho & Hw).
  unfold bind, newBuffer, defer_Put. cbn. apply Hk.
  exists (tr ++ [EvGet (fst (pool_Get (world f)))]). cbn.
  split; [| split; [| split; [| split]]].
  - rewrite trace_set_buf, trace_pool_Get, Ht, app_assoc. reflexivity.
  - rewrite acquired_app, Ha. reflexivity.
  - rewrite released_app, Hr. reflexivity.
  - change (out (snd (pool_Get (world f))) =
            fst (pool_Get (world f)) :: deferred f ++ out s0).
    now rewrite out_Get, Ho.
  - apply pool_wf_Get in Hw. exact Hw.
Qed.

Lemma keeps_Marshal s0 m b : keeps s0 (do_MarshalJSONBuf env m b).
Proof.
  intros f H. unfold do_MarshalJSONBuf, bind, upd, ret. cbn.
  apply (balanced_quiet s0 f _ [EvMarshal b]); auto.
Qed.

Lemma keeps_NewWriterLevel s0 c dst level :
  keeps s0 (do_NewWriterLevel env c dst level).
Proof.
  intros f H. unfold do_NewWriterLevel, bind, upd, ret. cbn.
  apply (balanced_quiet s0 f _ [EvNewWriter c dst level]); auto.
Qed.

Lemma keeps_zw_Write s0 zw p : keeps s0 (do_zw_Write env zw p).
Proof.
  intros f H. unfold do_zw_Write, bind, upd, ret. cbn.
  apply (balanced_quiet s0 f _ [EvZWrite (zw_codec zw) p]); auto.
Qed.

Lemma keeps_zw_Close s0 zw p werr : keeps s0 (do_zw_Close env zw p werr).
Proof.
  intros f H. unfold do_zw_Close, bind, upd, ret. cbn.
  apply (balanced_quiet s0 f _ [EvZClose (zw_codec zw)]); auto.
Qed.

Lemma keeps_conn_Write s0 w p : keeps s0 (do_conn_Write env w p).
Proof.
  intros f H. unfold do_conn_Write. cbn.
  apply (balanced_quiet s0 f _ [EvConnWrite p]); auto.
Qed.

Lemma keeps_writeChunked s0 w p : keeps s0 (do_writeChunked env w p).
Proof.
  intros f H. unfold do_writeChunked. cbn.
  apply (balanced_quiet s0 f _ [EvWriteChunked p]); auto.
Qed.

Lemma keeps_compressor_switch s0 w mBytes :
  keeps s0 (compressor_switch env w mBytes).
Proof.
  unfold compressor_switch.
  destruct (CompressionType w =? CompressGzip);
    [| destruct (CompressionType w =? CompressZlib);
       [| destruct (CompressionType w =? CompressNone)]].
  - apply keeps_newBuffer_defer. intros b.
    apply keeps_bind; [apply keeps_NewWriterLevel | intros r; apply keeps_ret].
  - apply keeps_newBuffer_defer. intros b.
    apply keeps_bind; [apply keeps_NewWriterLevel | intros r; apply keeps_ret].
  - apply keeps_ret.
  - apply keeps_exit.
Qed.

Lemma keeps_compress s0 zw zBytes err mBytes :
  keeps s0 (compress env zw zBytes err mBytes).
Proof.
  unfold compress. destruct zw as [z |]; [| apply keeps_ret].
  apply keeps_bind; [apply keeps_return_if_err | intros _].
  apply keeps_bind; [apply keeps_zw_Write | intros werr].
  destruct werr as [e |];
    (apply keeps_bind; [apply keeps_zw_Close | intros _]);
    [apply keeps_exit | apply keeps_Bytes].
Qed.

Lemma keeps_send s0 w zBytes : keeps s0 (send env w zBytes).
Proof.
  unfold send. destruct (numChunks (bytes zBytes) >? 1).
  - apply keeps_bind; [apply keeps_writeChunked | intros; apply keeps_ret].
  - apply keeps_bind; [apply keeps_conn_Write | intros r].
    apply keeps_bind; [apply keeps_return_if_err | intros _].
    destruct (negb _); apply keeps_ret.
Qed.

Lemma keeps_WriteMessage_body s0 w m : keeps s0 (WriteMessage_body env w m).
Proof.
  unfold WriteMessage_body.
  apply keeps_newBuffer_defer. intros mBuf.
  apply keeps_bind; [apply keeps_Marshal | intros err].
  apply keeps_bind; [apply keeps_return_if_err | intros _].
  apply keeps_bind; [apply keeps_Bytes | intros mBytes].
  apply keeps_bind; [apply keeps_compressor_switch | intros l].
  apply keeps_bind; [apply keeps_compress | intros zBytes].
  apply keeps_send.
Qed.

(** The shape of the events of one call: the buffers put back are the
    buffers taken, in reverse order, and no buffer was taken twice. *)
Lemma WriteMessage_pool w m s :
  pool_wf s ->
  released (events_of env w m s) = rev (acquired (events_of env w m s)) /\
  NoDup (acquired (events_of env w m s)) /\
  out (world_after env w m s) = out s /\
  pool_wf (world_after env w m s).
Proof.
  intros Hwf.
  pose proof (keeps_WriteMessage_body s w m _ (balanced_start s Hwf)) as Hb.
  unfold events_of, world_after, WriteMessage, call.
  destruct (WriteMessage_body env w m (mkFrame [] s)) as [r f].
  cbn in Hb. destruct Hb as (tr & Ht & Ha & Hr & Ho & Hw).
  destruct (run_deferred_spec (deferred f) (world f) (out s) Ho Hw)
    as (Ht' & Ho' & Hw').
  assert (Hsnd : snd (match r with
                      | Next o => (o, run_deferred (deferred f) (world f))
                      | Exit o => (o, run_deferred (deferred f) (world f))
                      end) = run_deferred (deferred f) (world f))
    by (destruct r; reflexivity).
  rewrite Hsnd, Ht', Ht, <- app_assoc, skipn_length_app.
  rewrite acquired_app, released_app, acquired_puts, released_puts, Ha, Hr.
  rewrite app_nil_r, rev_involutive. cbn.
  split; [reflexivity | split; [| split; [exact Ho' | exact Hw']]].
  destruct Hw as [Hnd _]. rewrite Ho in Hnd.
  apply NoDup_app_remove_l in Hnd. apply NoDup_app_remove_r in Hnd.
  apply NoDup_rev. exact Hnd.
Qed.

(** C3.  Started with a sound pool, a call of [WriteMessage], however
    it ends (return of [nil], return of an error, panic), has taken
    each of its buffers once and put each of them back once, has put
    back nothing else, and leaves the set of buffers that are out as
    it found it: empty if it was empty. *)
Theorem WriteMessage_releases_every_buffer w m s :
  pool_wf s ->
  (forall b, In b (acquired (events_of env w m s)) ->
     count_occ Nat.eq_dec (acquired (events_of env w m s)) b = 1%nat /\
     count_occ Nat.eq_dec (released (events_of env w m s)) b = 1%nat) /\
  (forall b, In b (released (events_of env w m s)) ->
     In b (acquired (events_of env w m s))) /\
  out (world_after env w m s) = out s /\
  (out s = [] -> out (world_after env w m s) = []) /\
  pool_wf (world_after env w m s).
Proof.
  intros Hwf.
  destruct (WriteMessage_pool w m s Hwf) as (Hrel & Hnd & Hout & Hwf').
  split; [| split; [| split; [exact Hout | split; [| exact Hwf']]]].
  - intros b Hin. split.
    + now apply (proj1 (NoDup_count_occ' Nat.eq_dec _) Hnd).
    + rewrite Hrel, count_occ_rev.
      now apply (proj1 (NoDup_count_occ' Nat.eq_dec _) Hnd).
  - intros b Hin. rewrite Hrel in Hin. now apply in_rev.
  - intros H0. now rewrite Hout.
Qed.

End PoolBalance.

(** ** [Write] and [NewUDPWriter] *)

Section WriterFacade.

Context {E Message Conn Net : Type}.
Variable env : Env E Message Conn Net.
Implicit Types (w : UDPWriter Conn) (m : Message) (s : World Net).

(** C9.  [Write(p)] runs [WriteMessage] on the record built from [p]
    and nothing else; it returns [(len(p), nil)] when that call returns
    [nil], whatever went over the wire, and [(0, err)] when it returns
    the error [err]; a panic of the call passes through. *)
Theorem Write_reports_input_length w (p : list byte) s :
  snd (Write env w p s) = world_after env w (message_of env w p) s /\
  match outcome_of env w (message_of env w p) s with
  | Return None => fst (Write env w p s) = WReturn (len p) None
  | Return (Some e) => fst (Write env w p s) = WReturn 0 (Some e)
  | Panic msg => fst (Write env w p s) = WPanic msg
  end.
Proof.
  unfold Write, outcome_of, world_after, message_of. cbv zeta.
  destruct (WriteMessage env w _ s) as [[[e |] | msg] s']; cbn; auto.
Qed.

(** With a codec selected and a record that serializes, one compressor
    is made, of that codec and at the level of the writer. *)
Lemma new_writers_codec w m s c :
  codec_of (CompressionType w) = Some c ->
  snd (MarshalJSONBuf env m) = None ->
  new_writers (events_of env w m s) = [(c, CompressionLevel w)].
Proof.
  intros Hc Hm. run. rewrite Hm. cbn.
  switch_on (CompressionType w); injection Hc as <-; cbn.
  all: destruct (NewWriterLevel env _ (CompressionLevel w)) as [e |];
    cbn; [events; reflexivity |];
    autorewrite with world;
    destruct (snd (zw_Write env _ (CompressionLevel w) (serialized env m)))
      as [e |]; cbn; [events; reflexivity |];
    autorewrite with world; split_chunked; cbn;
    [| autorewrite with world; split_conn_Write]; events; reflexivity.
Qed.

End WriterFacade.

(** * Concrete runs *)

(** ** Every exit of [WriteMessage], in the concrete environment *)

Example run_success :
  outcome_of Demo.sound (Demo.writer 0 1 CompressGzip)
    (Demo.Serializable Demo.hello) Demo.world0 = Return None.
Proof. reflexivity. Qed.

Example run_serialization_error :
  outcome_of Demo.sound (Demo.writer 0 1 CompressGzip)
    Demo.Unserializable Demo.world0 =
  Return (Demo.err "json: unsupported value").
Proof. reflexivity. Qed.

Example run_constructor_error :
  outcome_of Demo.sound (Demo.writer 0 42 CompressZlib)
    (Demo.Serializable Demo.hello) Demo.world0 =
  Return (Some (Errorf "invalid compression level: 42")).
Proof. reflexivity. Qed.

Example run_transport_error :
  outcome_of Demo.sound (Demo.writer 1 1 CompressGzip)
    (Demo.Serializable Demo.hello) Demo.world0 =
  Return (Demo.err "connection refused").
Proof. reflexivity. Qed.

Example run_chunked :
  sends (events_of Demo.sound (Demo.writer 0 1 CompressNone)
           (Demo.Serializable (zeros 2816)) Demo.world0) =
    [mkSlice (Some 0%nat) (zeros 2816)] /\
  conn_writes (events_of Demo.sound (Demo.writer 0 1 CompressNone)
                 (Demo.Serializable (zeros 2816)) Demo.world0) = [].
Proof. vm_compute. split; reflexivity. Qed.

(** 359040 = 255 * 1408 bytes: [numChunks] says 256, and the payload
    goes to [writeChunked] all the same. *)
Example run_256_chunks :
  let p := zeros (Z.to_nat (255 * chunkedDataLen)) in
  len p = 359040 /\
  numChunks p = 256 /\
  exists b,
    sends (events_of Demo.sound (Demo.writer 0 1 CompressNone)
             (Demo.Serializable p) Demo.world0) = [mkSlice (Some b) p].
Proof.
  intros p.
  assert (Hl : len p = 359040).
  { unfold p. rewrite len_zeros, Z2Nat.id by (rewrite chunkedDataLen_val; lia).
    reflexivity. }
  assert (Hn : numChunks p = 256).
  { rewrite numChunks_large by (rewrite Hl; reflexivity).
    rewrite Hl. reflexivity. }
  split; [exact Hl | split; [exact Hn |]].
  clearbody p.
  destruct (chunked_dispatch Demo.sound (Demo.writer 0 1 CompressNone)
              (Demo.Serializable p) Demo.world0 p eq_refl)
    as ((b & Hs & _) & _); [lia |].
  exists b. exact Hs.
Qed.

(** [Write] reports the 5 bytes it was given, while 8 went out. *)
Example Write_counts_input :
  fst (Write Demo.sound (Demo.writer 0 1 CompressGzip) Demo.hello Demo.world0) =
    WReturn 5 None /\
  map len (net (snd (Write Demo.sound (Demo.writer 0 1 CompressGzip)
                       Demo.hello Demo.world0))) = [8].
Proof. vm_compute. split; reflexivity. Qed.

Lemma pool_wf_world1 : pool_wf Demo.world1.
Proof.
  split; cbn.
  - repeat constructor; cbn; intuition discriminate.
  - intros b [<- | [<- | []]]; lia.
Defined.

(** ** Claims that fail on the code *)

(** C2 (counterexample).  A gzip compressor whose write works and whose
    close fails: the call returns [nil], not the error of the close, and
    the datagram is sent. *)
Lemma close_error_not_surfaced :
  codec_of (CompressionType (Demo.writer 0 1 CompressGzip)) = Some Gzip /\
  snd (zw_Write Demo.close_fails Gzip 1 Demo.hello) = None /\
  snd (zw_Close Demo.close_fails Gzip 1 Demo.hello None) =
    Demo.err "close failed" /\
  outcome_of Demo.close_fails (Demo.writer 0 1 CompressGzip)
    (Demo.Serializable Demo.hello) Demo.world0 = Return None /\
  outcome_of Demo.close_fails (Demo.writer 0 1 CompressGzip)
    (Demo.Serializable Demo.hello) Demo.world0 <>
    Return (Demo.err "close failed") /\
  net (world_after Demo.close_fails (Demo.writer 0 1 CompressGzip)
         (Demo.Serializable Demo.hello) Demo.world0) =
    [magicGzip ++ Demo.hello ++ [Byte.x00]].
Proof. vm_compute. repeat split; try reflexivity. discriminate. Qed.

(** C6 (counterexample).  On the single-datagram path, a socket that
    reports 0 bytes of 5 together with an error: the call returns that
    error, not the error of a short write. *)
Lemma transport_error_hides_byte_count :
  compressed Demo.sound (Demo.writer 1 1 CompressNone)
    (Demo.Serializable Demo.hello) = Some Demo.hello /\
  numChunks Demo.hello = 1 /\
  fst (conn_Write Demo.sound 1%nat Demo.hello []) =
    (0, Demo.err "connection refused") /\
  0 <> len Demo.hello /\
  outcome_of Demo.sound (Demo.writer 1 1 CompressNone)
    (Demo.Serializable Demo.hello) Demo.world0 =
    Return (Demo.err "connection refused") /\
  outcome_of Demo.sound (Demo.writer 1 1 CompressNone)
    (Demo.Serializable Demo.hello) Demo.world0 <>
    Return (Some (bad_write 0 (len Demo.hello))).
Proof. vm_compute. repeat split; try reflexivity; discriminate. Qed.

(** C8 (counterexample).  Compression type 7 and a record that does not
    serialize: the call returns the serialization error and does not
    panic. *)
Lemma unknown_type_returns_serialization_error :
  CompressionType (Demo.writer 0 1 7) <> CompressGzip /\
  CompressionType (Demo.writer 0 1 7) <> CompressZlib /\
  CompressionType (Demo.writer 0 1 7) <> CompressNone /\
  outcome_of Demo.sound (Demo.writer 0 1 7) Demo.Unserializable Demo.world0 =
    Return (Demo.err "json: unsupported value") /\
  forall msg,
    outcome_of Demo.sound (Demo.writer 0 1 7) Demo.Unserializable Demo.world0 <>
    Panic msg.
Proof. vm_compute. repeat split; try reflexivity; discriminate. Qed.

(** ** The theorems at concrete inputs *)

(** A gzip call that takes both of its buffers from a pool holding
    stale ones. *)
Lemma WriteMessage_releases_every_buffer_witness :
  pool_wf Demo.world1 /\
  let tr := events_of Demo.sound (Demo.writer 0 1 CompressGzip)
              (Demo.Serializable Demo.hello) Demo.world1 in
  let s' := world_after Demo.sound (Demo.writer 0 1 CompressGzip)
              (Demo.Serializable Demo.hello) Demo.world1 in
  (forall b, In b (acquired tr) ->
     count_occ Nat.eq_dec (acquired tr) b = 1%nat /\
     count_occ Nat.eq_dec (released tr) b = 1%nat) /\
  (forall b, In b (released tr) -> In b (acquired tr)) /\
  out s' = out Demo.world1 /\
  (out Demo.world1 = [] -> out s' = []) /\
  pool_wf s'.
Proof.
  split; [exact pool_wf_world1 |].
  exact (WriteMessage_releases_every_buffer Demo.sound
           (Demo.writer 0 1 CompressGzip) (Demo.Serializable Demo.hello)
           Demo.world1 pool_wf_world1).
Defined.

(** A zlib compressor whose write and close both fail. *)
Lemma write_error_closes_compressor_witness :
  codec_of (CompressionType (Demo.writer 0 1 CompressZlib)) = Some Zlib /\
  snd (MarshalJSONBuf Demo.both_fail (Demo.Serializable Demo.hello)) = None /\
  NewWriterLevel Demo.both_fail Zlib 1 = None /\
  snd (zw_Write Demo.both_fail Zlib 1
         (serialized Demo.both_fail (Demo.Serializable Demo.hello))) =
    Some (Foreign "write failed"%string) /\
  snd (zw_Close Demo.both_fail Zlib 1 Demo.hello
         (Some (Foreign "write failed"%string))) =
    Some (Foreign "close failed"%string) /\
  outcome_of Demo.both_fail (Demo.writer 0 1 CompressZlib)
    (Demo.Serializable Demo.hello) Demo.world0 =
    Return (Some (Foreign "write failed"%string)) /\
  closes (events_of Demo.both_fail (Demo.writer 0 1 CompressZlib)
            (Demo.Serializable Demo.hello) Demo.world0) = [Zlib].
Proof.
  do 5 (split; [reflexivity |]).
  pose proof (write_error_closes_compressor Demo.both_fail
                (Demo.writer 0 1 CompressZlib) (Demo.Serializable Demo.hello)
                Demo.world0 Zlib (Foreign "write failed"%string)
                eq_refl eq_refl eq_refl eq_refl) as H.
  exact (conj (proj1 H) (proj1 (proj2 H))).
Defined.

(** A socket that takes 4 bytes of 5 and reports no error. *)
Lemma direct_send_witness :
  compressed Demo.sound (Demo.writer 2 1 CompressNone)
    (Demo.Serializable Demo.hello) = Some Demo.hello /\
  numChunks Demo.hello = 1 /\
  (exists b,
     conn_writes (events_of Demo.sound (Demo.writer 2 1 CompressNone)
                    (Demo.Serializable Demo.hello) Demo.world0) =
       [mkSlice (Some b) Demo.hello] /\
     sends (events_of Demo.sound (Demo.writer 2 1 CompressNone)
              (Demo.Serializable Demo.hello) Demo.world0) =
       [mkSlice (Some b) Demo.hello]) /\
  outcome_of Demo.sound (Demo.writer 2 1 CompressNone)
    (Demo.Serializable Demo.hello) Demo.world0 =
    Return (Some (Errorf "bad write (4/5)")).
Proof.
  do 2 (split; [reflexivity |]).
  exact (direct_send Demo.sound (Demo.writer 2 1 CompressNone)
           (Demo.Serializable Demo.hello) Demo.world0 Demo.hello
           eq_refl eq_refl).
Defined.

(** An uncompressed record on a working socket. *)
Lemma none_sends_serialized_bytes_witness :
  CompressionType (Demo.writer 0 1 CompressNone) = CompressNone /\
  new_writers (events_of Demo.sound (Demo.writer 0 1 CompressNone)
                 (Demo.Serializable Demo.hello) Demo.world1) = [] /\
  acquired (events_of Demo.sound (Demo.writer 0 1 CompressNone)
              (Demo.Serializable Demo.hello) Demo.world1) = [0%nat] /\
  sends (events_of Demo.sound (Demo.writer 0 1 CompressNone)
           (Demo.Serializable Demo.hello) Demo.world1) =
    [mkSlice (Some 0%nat) Demo.hello].
Proof.
  split; [reflexivity |].
  exact (none_sends_serialized_bytes Demo.sound (Demo.writer 0 1 CompressNone)
           (Demo.Serializable Demo.hello) Demo.world1 eq_refl).
Defined.

(** Compression type 7 and a record that serializes. *)
Lemma unknown_compression_type_witness :
  CompressionType (Demo.writer 0 1 7) <> CompressGzip /\
  CompressionType (Demo.writer 0 1 7) <> CompressZlib /\
  CompressionType (Demo.writer 0 1 7) <> CompressNone /\
  snd (MarshalJSONBuf Demo.sound (Demo.Serializable Demo.hello)) = None /\
  outcome_of Demo.sound (Demo.writer 0 1 7) (Demo.Serializable Demo.hello)
    Demo.world0 = Panic "unknown compression type 7" /\
  events_of Demo.sound (Demo.writer 0 1 7) (Demo.Serializable Demo.hello)
    Demo.world0 = [EvGet 0; EvMarshal 0; EvPut 0].
Proof.
  assert (H0 : CompressionType (Demo.writer 0 1 7) <> CompressGzip)
    by discriminate.
  assert (H1 : CompressionType (Demo.writer 0 1 7) <> CompressZlib)
    by discriminate.
  assert (H2 : CompressionType (Demo.writer 0 1 7) <> CompressNone)
    by discriminate.
  do 4 (split; [assumption || reflexivity |]).
  exact (proj1 (unknown_compression_type Demo.sound (Demo.writer 0 1 7)
                  (Demo.Serializable Demo.hello) Demo.world0 H0 H1 H2)
           eq_refl).
Defined.


(** * Further properties *)

(** ** The chunk planner *)

(** X1.  [numChunks] never returns less than 1, and returns 1 exactly
    for the payloads of at most [ChunkSize] bytes: those, and only
    those, go out as a single datagram. *)
Theorem numChunks_single_iff (b : list byte) :
  1 <= numChunks b /\ (numChunks b = 1 <-> len b <= ChunkSize).
Proof.
  split; [apply numChunks_pos |]. split.
  - intros H1. destruct (Z_le_gt_dec (len b) ChunkSize) as [Hle | Hgt];
      [exact Hle | exfalso].
    rewrite numChunks_large in H1 by lia.
    assert (1 <= len b / chunkedDataLen).
    { apply Z.div_le_lower_bound; [reflexivity |].
      rewrite chunkedDataLen_val. unfold ChunkSize in Hgt. lia. }
    lia.
  - apply numChunks_small.
Qed.

(** X2.  Above [ChunkSize] the count is never too small: that many
    chunks of [chunkedDataLen] bytes hold more than the payload, and one
    chunk less holds at most the payload, so at most the last chunk is
    empty. *)
Theorem numChunks_covers (b : list byte) :
  ChunkSize < len b ->
  (numChunks b - 1) * chunkedDataLen <= len b < numChunks b * chunkedDataLen.
Proof.
  intros H. rewrite numChunks_large by assumption.
  rewrite chunkedDataLen_val.
  pose proof (Z.div_mod (len b) 1408 ltac:(lia)) as Hdm.
  pose proof (Z.mod_pos_bound (len b) 1408 ltac:(lia)) as Hb.
  lia.
Qed.

Lemma numChunks_covers_witness :
  ChunkSize < len (zeros 5000) /\
  (numChunks (zeros 5000) - 1) * chunkedDataLen <= len (zeros 5000)
    < numChunks (zeros 5000) * chunkedDataLen.
Proof.
  assert (H : ChunkSize < len (zeros 5000)) by (vm_compute; reflexivity).
  split; [exact H | exact (numChunks_covers (zeros 5000) H)].
Defined.

(** X3.  A longer payload never gets fewer chunks. *)
Theorem numChunks_monotone (a b : list byte) :
  len a <= len b -> numChunks a <= numChunks b.
Proof.
  intros H.
  destruct (Z_le_gt_dec (len a) ChunkSize) as [Ha | Ha].
  - rewrite (numChunks_small a) by assumption. apply numChunks_pos.
  - rewrite (numChunks_large a), (numChunks_large b) by lia.
    assert (len a / chunkedDataLen <= len b / chunkedDataLen)
      by (apply Z.div_le_mono; [reflexivity | assumption]).
    lia.
Qed.

Lemma numChunks_monotone_witness :
  len (zeros 1420) <= len (zeros 1421) /\
  numChunks (zeros 1420) <= numChunks (zeros 1421).
Proof.
  assert (H : len (zeros 1420) <= len (zeros 1421))
    by (vm_compute; discriminate).
  split; [exact H | exact (numChunks_monotone _ _ H)].
Defined.

(** X4.  The count fits a byte, the width of the two chunk-header
    fields, exactly for the payloads shorter than 255 * 1408 = 359040
    bytes; [numChunks] itself goes on counting above that. *)
Theorem numChunks_fits_byte_iff (b : list byte) :
  0 <= numChunks b < 256 <-> len b < 359040.
Proof.
  pose proof (numChunks_pos b) as Hpos.
  pose proof (numChunks_le_255_iff b) as H255.
  rewrite chunkedDataLen_val in H255. lia.
Qed.

(** X5.  Above [ChunkSize] the count is the ceiling of
    [len / chunkedDataLen] exactly when [chunkedDataLen] does not divide
    the length, and one more than the ceiling when it does. *)
Theorem numChunks_ceiling_iff (b : list byte) :
  ChunkSize < len b ->
  (numChunks b = ceil_div (len b) chunkedDataLen <->
   len b mod chunkedDataLen <> 0) /\
  (numChunks b = ceil_div (len b) chunkedDataLen + 1 <->
   len b mod chunkedDataLen = 0).
Proof.
  intros H. rewrite (numChunks_vs_ceiling b H).
  destruct (Z.eqb_spec (len b mod chunkedDataLen) 0) as [E0 | N0]; lia.
Qed.

Lemma numChunks_ceiling_iff_witness :
  ChunkSize < len (zeros 5000) /\
  (numChunks (zeros 5000) = ceil_div (len (zeros 5000)) chunkedDataLen <->
   len (zeros 5000) mod chunkedDataLen <> 0) /\
  (numChunks (zeros 5000) = ceil_div (len (zeros 5000)) chunkedDataLen + 1 <->
   len (zeros 5000) mod chunkedDataLen = 0).
Proof.
  assert (H : ChunkSize < len (zeros 5000)) by (vm_compute; reflexivity).
  split; [exact H | exact (numChunks_ceiling_iff (zeros 5000) H)].
Defined.

(** ** [WriteMessage]: result, network and senders *)

Section MoreWorldFacts.

Context {Net : Type}.
Implicit Types (s : World Net) (b : nat) (d : list byte) (ev : Event).

Lemma net_set_net (n : Net) s : net (set_net n s) = n.
Proof. reflexivity. Qed.

Lemma net_pool_Put b s : net (pool_Put b s) = net s.
Proof. reflexivity. Qed.

Lemma heap_pool_Put b s b' : heap (pool_Put b s) b' = heap s b'.
Proof. reflexivity. Qed.

Lemma heap_set_buf_other b d s b' :
  b' <> b -> heap (set_buf b d s) b' = heap s b'.
Proof.
  intros H. unfold set_buf. cbn.
  destruct (Nat.eqb_spec b' b); [contradiction | reflexivity].
Qed.

Lemma heap_buf_append_other b d s b' :
  b' <> b -> heap (buf_append b d s) b' = heap s b'.
Proof. intros H. unfold buf_append. now apply heap_set_buf_other. Qed.

Lemma heap_pool_Get_other s b' :
  b' <> fst (pool_Get s) -> heap (snd (pool_Get s)) b' = heap s b'.
Proof.
  unfold pool_Get. destruct (free s) as [| b rest]; cbn; intros H.
  - rewrite heap_log, heap_set_buf_other by assumption. reflexivity.
  - reflexivity.
Qed.

Lemma conn_writes_le_sends (tr : list Event) :
  (List.length (conn_writes tr) <= List.length (sends tr))%nat.
Proof.
  induction tr as [| ev tr IH]; [reflexivity |].
  destruct ev; cbn; lia.
Qed.

End MoreWorldFacts.

#[local] Hint Rewrite @net_set_net @net_pool_Put @heap_pool_Put : world.

Section WriteMessageResult.

Context {E Message Conn Net : Type}.
Variable env : Env E Message Conn Net.
Implicit Types (w : UDPWriter Conn) (m : Message) (s : World Net).

(** The run of [WriteMessage], pool and buffers set aside. *)
Lemma WriteMessage_plan w m s :
  outcome_of env w m s =
    match plan env w m with
    | inl o => o
    | inr z => send_outcome env w z (net s)
    end /\
  net (world_after env w m s) =
    match plan env w m with
    | inl _ => net s
    | inr z => send_net env w z (net s)
    end.
Proof.
  unfold plan, codec_plan, send_outcome, send_net. run.
  destruct (snd (MarshalJSONBuf env m)) as [e |] eqn:Hm; cbn.
  { autorewrite with world. split; reflexivity. }
  switch_on (CompressionType w); cbn.
  3: { autorewrite with world. split_chunked; cbn.
       - autorewrite with world. split; reflexivity.
       - autorewrite with world.
         destruct (conn_Write env (conn w) (serialized env m) (net s))
           as [[k [e |]] nt]; cbn;
           [| destruct (k =? len (serialized env m)); cbn];
           autorewrite with world; split; reflexivity. }
  3: { autorewrite with world. split; reflexivity. }
  all: destruct (NewWriterLevel env _ (CompressionLevel w)) as [e |] eqn:Hnew;
    cbn; [autorewrite with world; split; reflexivity |];
    autorewrite with world;
    destruct (snd (zw_Write env _ (CompressionLevel w) (serialized env m)))
      as [e |] eqn:Hw; cbn; [autorewrite with world; split; reflexivity |];
    autorewrite with world; split_chunked; cbn;
    [ autorewrite with world; split; reflexivity |];
    autorewrite with world;
    match goal with
    | |- context [conn_Write ?e ?c ?p ?n] =>
        destruct (conn_Write e c p n) as [[k [e' |]] nt]; cbn;
        [| destruct (k =? len p); cbn]
    end;
    autorewrite with world; split; reflexivity.
Qed.

(** [compressed] is the payload of [plan]. *)
Lemma compressed_plan w m :
  compressed env w m =
    match plan env w m with inl _ => None | inr z => Some z end.
Proof.
  unfold compressed, plan, codec_plan, codec_of.
  destruct (snd (MarshalJSONBuf env m)); [reflexivity |].
  destruct (CompressionType w =? CompressGzip);
    [| destruct (CompressionType w =? CompressZlib);
       [| destruct (CompressionType w =? CompressNone); reflexivity]];
    (destruct (NewWriterLevel env _ (CompressionLevel w)); [reflexivity |];
     cbv zeta;
     destruct (snd (zw_Write env _ (CompressionLevel w) (serialized env m)));
     reflexivity).
Qed.

End WriteMessageResult.

Lemma numChunks_many (b : list byte) : ChunkSize < len b -> 1 < numChunks b.
Proof.
  intros H. rewrite numChunks_large by assumption.
  assert (1 <= len b / chunkedDataLen).
  { apply Z.div_le_lower_bound; [reflexivity |].
    rewrite chunkedDataLen_val. unfold ChunkSize in H. lia. }
  lia.
Qed.

Section WriteMessageMore.

Context {E Message Conn Net : Type}.
Variable env : Env E Message Conn Net.
Implicit Types (w : UDPWriter Conn) (m : Message) (s : World Net).

(** X6.  A record that does not serialize: the call returns the error
    of [MarshalJSONBuf] whatever the compression type is, after taking
    one buffer and putting it back; it makes no compressor, hands
    nothing to a sender and leaves the network as it was. *)
Theorem serialization_failure w m s e :
  snd (MarshalJSONBuf env m) = Some e ->
  outcome_of env w m s = Return (Some e) /\
  events_of env w m s =
    [EvGet (mBuf_of s); EvMarshal (mBuf_of s); EvPut (mBuf_of s)] /\
  net (world_after env w m s) = net s.
Proof.
  intros Hm.
  destruct (marshal_error_returned env w m s e Hm) as [Ho He].
  destruct (WriteMessage_plan env w m s) as [_ Hn].
  unfold plan in Hn. rewrite Hm in Hn.
  split; [exact Ho | split; [exact He | exact Hn]].
Qed.

(** X7.  A payload of more than [ChunkSize] bytes goes to
    [writeChunked], once and whole, and never to [conn.Write]; the call
    returns what [writeChunked] returns and the network is as
    [writeChunked] left it. *)
Theorem chunked_send w m s z :
  compressed env w m = Some z ->
  ChunkSize < len z ->
  (exists b, sends (events_of env w m s) = [mkSlice (Some b) z] /\
             In (EvWriteChunked (mkSlice (Some b) z)) (events_of env w m s)) /\
  conn_writes (events_of env w m s) = [] /\
  outcome_of env w m s = Return (fst (writeChunked env (conn w) z (net s))) /\
  net (world_after env w m s) = snd (writeChunked env (conn w) z (net s)).
Proof.
  intros Hz Hbig.
  pose proof (numChunks_many z Hbig) as Hmany.
  destruct (chunked_dispatch env w m s z Hz Hmany)
    as ((b & Hs & Hin) & Hcw & Ho).
  destruct (WriteMessage_plan env w m s) as [_ Hn].
  rewrite compressed_plan in Hz.
  destruct (plan env w m) as [o | z']; [discriminate |].
  injection Hz as ->.
  unfold send_net in Hn.
  rewrite (proj2 (Z.gtb_lt _ _)) in Hn by lia.
  split; [| split; [exact Hcw | split; [exact Ho | exact Hn]]].
  exists b. split; [exact Hs | exact Hin].
Qed.

(** X8.  A call hands a payload to a sender at most once, and to
    [conn.Write] at most once; it does so exactly when serialization
    and compression both succeed, and the bytes handed over are then
    the compressed payload. *)
Theorem one_send_per_call w m s :
  (List.length (sends (events_of env w m s)) <= 1)%nat /\
  (List.length (conn_writes (events_of env w m s)) <= 1)%nat /\
  map bytes (sends (events_of env w m s)) =
    match compressed env w m with
    | Some z => [z]
    | None => []
    end.
Proof.
  pose proof (conn_writes_le_sends (events_of env w m s)) as Hle.
  rewrite (sends_compressed env w m s) in *.
  destruct (compressed env w m); cbn in *; repeat split; lia.
Qed.

(** X9.  A call takes the record's buffer, and a second buffer exactly
    when the record serializes and a codec is selected; the constructor
    of the codec failing does not change that. *)
Theorem acquired_buffers w m s :
  acquired (events_of env w m s) =
    match snd (MarshalJSONBuf env m), codec_of (CompressionType w) with
    | None, Some _ => [mBuf_of s; zBuf_of s]
    | _, _ => [mBuf_of s]
    end.
Proof.
  run.
  destruct (snd (MarshalJSONBuf env m)) as [e |] eqn:Hm; cbn.
  { events. reflexivity. }
  switch_on (CompressionType w); cbn.
  3: autorewrite with world; split_chunked; cbn;
     [| autorewrite with world; split_conn_Write]; events; reflexivity.
  3: events; reflexivity.
  all: destruct (NewWriterLevel env _ (CompressionLevel w)) as [e |] eqn:Hnew;
    cbn; [events; reflexivity |];
    autorewrite with world;
    destruct (snd (zw_Write env _ (CompressionLevel w) (serialized env m)))
      as [e |] eqn:Hw; cbn; [events; reflexivity |];
    autorewrite with world; split_chunked; cbn;
    [| autorewrite with world; split_conn_Write]; events; reflexivity.
Qed.

(** X10.  A compressor is closed exactly once when its constructor
    succeeded, whether the write to it fails or not, and [Close] is
    never called when the constructor failed or was not reached. *)
Theorem closes_once w m s :
  closes (events_of env w m s) =
    match snd (MarshalJSONBuf env m), codec_of (CompressionType w) with
    | None, Some c =>
        match NewWriterLevel env c (CompressionLevel w) with
        | None => [c]
        | Some _ => []
        end
    | _, _ => []
    end.
Proof.
  run.
  destruct (snd (MarshalJSONBuf env m)) as [e |] eqn:Hm; cbn.
  { events. reflexivity. }
  switch_on (CompressionType w); cbn.
  3: autorewrite with world; split_chunked; cbn;
     [| autorewrite with world; split_conn_Write]; events; reflexivity.
  3: events; reflexivity.
  all: destruct (NewWriterLevel env _ (CompressionLevel w)) as [e |] eqn:Hnew;
    cbn; [events; reflexivity |];
    autorewrite with world;
    destruct (snd (zw_Write env _ (CompressionLevel w) (serialized env m)))
      as [e |] eqn:Hw; cbn; [events; reflexivity |];
    autorewrite with world; split_chunked; cbn;
    [| autorewrite with world; split_conn_Write]; events; reflexivity.
Qed.

(** X12.  The buffer pool does not show in the result: two calls for
    the same record and writer, started on the same network but with
    different pools and different stale contents in the buffers, return
    the same outcome, leave the same network and hand the same bytes to
    the senders. *)
Theorem pool_does_not_show w m s1 s2 :
  net s1 = net s2 ->
  outcome_of env w m s1 = outcome_of env w m s2 /\
  net (world_after env w m s1) = net (world_after env w m s2) /\
  map bytes (sends (events_of env w m s1)) =
  map bytes (sends (events_of env w m s2)).
Proof.
  intros Hnet.
  destruct (WriteMessage_plan env w m s1) as [Ho1 Hn1].
  destruct (WriteMessage_plan env w m s2) as [Ho2 Hn2].
  rewrite Ho1, Ho2, Hn1, Hn2, Hnet.
  rewrite !sends_compressed.
  destruct (compressed env w m); repeat split; reflexivity.
Qed.

(** X13.  A call that stops before the send (serialization error,
    constructor error, write error, unknown compression type) leaves
    the network as it was and hands nothing to a sender. *)
Theorem early_exit_leaves_network w m s :
  compressed env w m = None ->
  net (world_after env w m s) = net s /\
  sends (events_of env w m s) = [].
Proof.
  intros Hz. split.
  - destruct (WriteMessage_plan env w m s) as [_ Hn].
    rewrite compressed_plan in Hz.
    destruct (plan env w m) as [o | z]; [exact Hn | discriminate].
  - rewrite sends_compressed, Hz. reflexivity.
Qed.

End WriteMessageMore.

(** ** Order of the events, and the buffers left alone *)

Section TraceFacts2.

Lemma sends_app (t1 t2 : list Event) :
  sends (t1 ++ t2) = sends t1 ++ sends t2.
Proof.
  induction t1 as [| ev t1 IH]; [reflexivity |].
  destruct ev; simpl; rewrite IH; reflexivity.
Qed.

Lemma sends_puts (ds : list nat) : sends (map EvPut ds) = [].
Proof. induction ds; simpl; auto. Qed.

End TraceFacts2.

Section WriteMessageOrder.

Context {E Message Conn Net : Type}.
Variable env : Env E Message Conn Net.
Implicit Types (w : UDPWriter Conn) (m : Message) (s : World Net).

(** X11.  No buffer goes back to the pool while the call still works:
    the events of a call are a body without any [Put], which holds
    every hand-over to a sender, followed by the [Put] of each buffer
    taken, the last taken first. *)
Theorem puts_come_last w m s :
  pool_wf s ->
  exists body,
    events_of env w m s = body ++ map EvPut (rev (acquired body)) /\
    released body = [] /\
    sends body = sends (events_of env w m s).
Proof.
  intros Hwf.
  pose proof (keeps_WriteMessage_body env s w m _ (balanced_start s Hwf)) as Hb.
  unfold events_of, world_after, WriteMessage, call.
  destruct (WriteMessage_body env w m (mkFrame [] s)) as [r f].
  cbn in Hb. destruct Hb as (tr & Ht & Ha & Hr & Ho & Hw).
  destruct (run_deferred_spec (deferred f) (world f) (out s) Ho Hw)
    as (Ht' & _ & _).
  assert (Hsnd : snd (match r with
                      | Next o => (o, run_deferred (deferred f) (world f))
                      | Exit o => (o, run_deferred (deferred f) (world f))
                      end) = run_deferred (deferred f) (world f))
    by (destruct r; reflexivity).
  rewrite Hsnd, Ht', Ht, <- app_assoc, skipn_length_app.
  exists tr. rewrite Ha, rev_involutive, sends_app, sends_puts, app_nil_r.
  split; [reflexivity | split; [exact Hr | reflexivity]].
Qed.

End WriteMessageOrder.

(** ** [Write] after [Write] *)

Section WriterMore.

Context {E Message Conn Net : Type}.
Variable env : Env E Message Conn Net.
Implicit Types (w : UDPWriter Conn) (s : World Net).

Lemma Write_world w (p : list byte) s :
  snd (Write env w p s) = world_after env w (message_of env w p) s.
Proof.
  unfold Write, world_after, message_of. cbv zeta.
  destruct (WriteMessage env w _ s) as [[[e |] | msg] s']; reflexivity.
Qed.

(** X15.  Any number of [Write] calls in a row, whatever each of them
    returns, leaves the set of buffers that are out as it was (empty if
    it was empty) and the pool sound; there is one result per input. *)
Theorem Write_all_keeps_pool w (ps : list (list byte)) :
  forall s,
    pool_wf s ->
    out (snd (Write_all env w ps s)) = out s /\
    pool_wf (snd (Write_all env w ps s)) /\
    List.length (fst (Write_all env w ps s)) = List.length ps.
Proof.
  induction ps as [| p ps IH]; intros s Hwf; cbn.
  - auto.
  - destruct (WriteMessage_pool env w (message_of env w p) s Hwf)
      as (_ & _ & Hout & Hwf').
    rewrite <- Write_world in Hout, Hwf'.
    destruct (IH (snd (Write env w p s)) Hwf') as (Ho & Hw & Hl).
    rewrite Ho, Hout, Hl. auto.
Qed.

End WriterMore.

(** ** The further properties at concrete inputs *)

(** Compression type 7 and a record that does not serialize. *)
Lemma serialization_failure_witness :
  snd (MarshalJSONBuf Demo.sound Demo.Unserializable) =
    Demo.err "json: unsupported value" /\
  outcome_of Demo.sound (Demo.writer 0 1 7) Demo.Unserializable Demo.world1 =
    Return (Demo.err "json: unsupported value") /\
  events_of Demo.sound (Demo.writer 0 1 7) Demo.Unserializable Demo.world1 =
    [EvGet 0; EvMarshal 0; EvPut 0] /\
  net (world_after Demo.sound (Demo.writer 0 1 7) Demo.Unserializable
         Demo.world1) = [].
Proof.
  split; [reflexivity |].
  exact (serialization_failure Demo.sound (Demo.writer 0 1 7)
           Demo.Unserializable Demo.world1 (Foreign "json: unsupported value"%string)
           eq_refl).
Defined.

(** 1421 bytes, uncompressed: one byte over [ChunkSize]. *)
Lemma chunked_send_witness :
  compressed Demo.sound (Demo.writer 0 1 CompressNone)
    (Demo.Serializable (zeros 1421)) = Some (zeros 1421) /\
  ChunkSize < len (zeros 1421) /\
  conn_writes (events_of Demo.sound (Demo.writer 0 1 CompressNone)
                 (Demo.Serializable (zeros 1421)) Demo.world0) = [] /\
  outcome_of Demo.sound (Demo.writer 0 1 CompressNone)
    (Demo.Serializable (zeros 1421)) Demo.world0 =
    Return (fst (writeChunked Demo.sound 0%nat (zeros 1421) [])).
Proof.
  assert (Hbig : ChunkSize < len (zeros 1421)) by (vm_compute; reflexivity).
  do 2 (split; [assumption || reflexivity |]).
  pose proof (chunked_send Demo.sound (Demo.writer 0 1 CompressNone)
                (Demo.Serializable (zeros 1421)) Demo.world0 (zeros 1421)
                eq_refl Hbig) as (_ & Hcw & Ho & _).
  exact (conj Hcw Ho).
Defined.

(** A gzip call on a pool that holds two stale buffers. *)
Lemma puts_come_last_witness :
  pool_wf Demo.world1 /\
  exists body,
    events_of Demo.sound (Demo.writer 0 1 CompressGzip)
      (Demo.Serializable Demo.hello) Demo.world1 =
      body ++ map EvPut (rev (acquired body)) /\
    released body = [] /\
    sends body =
      sends (events_of Demo.sound (Demo.writer 0 1 CompressGzip)
               (Demo.Serializable Demo.hello) Demo.world1).
Proof.
  split; [exact pool_wf_world1 |].
  exact (puts_come_last Demo.sound (Demo.writer 0 1 CompressGzip)
           (Demo.Serializable Demo.hello) Demo.world1 pool_wf_world1).
Defined.

(** An empty pool against a pool of two buffers full of [0xff]. *)
Lemma pool_does_not_show_witness :
  net Demo.world0 = net Demo.world1 /\
  outcome_of Demo.sound (Demo.writer 0 1 CompressGzip)
    (Demo.Serializable Demo.hello) Demo.world0 =
  outcome_of Demo.sound (Demo.writer 0 1 CompressGzip)
    (Demo.Serializable Demo.hello) Demo.world1 /\
  net (world_after Demo.sound (Demo.writer 0 1 CompressGzip)
         (Demo.Serializable Demo.hello) Demo.world0) =
  net (world_after Demo.sound (Demo.writer 0 1 CompressGzip)
         (Demo.Serializable Demo.hello) Demo.world1) /\
  map bytes (sends (events_of Demo.sound (Demo.writer 0 1 CompressGzip)
                      (Demo.Serializable Demo.hello) Demo.world0)) =
  map bytes (sends (events_of Demo.sound (Demo.writer 0 1 CompressGzip)
                      (Demo.Serializable Demo.hello) Demo.world1)).
Proof.
  split; [reflexivity |].
  exact (pool_does_not_show Demo.sound (Demo.writer 0 1 CompressGzip)
           (Demo.Serializable Demo.hello) Demo.world0 Demo.world1 eq_refl).
Defined.

(** A zlib constructor refusing level 42. *)
Lemma early_exit_leaves_network_witness :
  compressed Demo.sound (Demo.writer 0 42 CompressZlib)
    (Demo.Serializable Demo.hello) = None /\
  net (world_after Demo.sound (Demo.writer 0 42 CompressZlib)
         (Demo.Serializable Demo.hello) Demo.world0) = net Demo.world0 /\
  sends (events_of Demo.sound (Demo.writer 0 42 CompressZlib)
           (Demo.Serializable Demo.hello) Demo.world0) = [].
Proof.
  split; [reflexivity |].
  exact (early_exit_leaves_network Demo.sound (Demo.writer 0 42 CompressZlib)
           (Demo.Serializable Demo.hello) Demo.world0 eq_refl).
Defined.

(** Three writes in a row, the second of an empty input. *)
Lemma Write_all_keeps_pool_witness :
  pool_wf Demo.world1 /\
  out (snd (Write_all Demo.sound (Demo.writer 0 1 CompressGzip)
              [Demo.hello; []; zeros 3] Demo.world1)) = out Demo.world1 /\
  pool_wf (snd (Write_all Demo.sound (Demo.writer 0 1 CompressGzip)
                  [Demo.hello; []; zeros 3] Demo.world1)) /\
  List.length (fst (Write_all Demo.sound (Demo.writer 0 1 CompressGzip)
                      [Demo.hello; []; zeros 3] Demo.world1)) = 3%nat.
Proof.
  split; [exact pool_wf_world1 |].
  exact (Write_all_keeps_pool Demo.sound (Demo.writer 0 1 CompressGzip)
           [Demo.hello; []; zeros 3] Demo.world1 pool_wf_world1).
Defined.

(** ** [newBuffer] *)

Section NewBuffer.

Context {E Net : Type}.
Implicit Types (f : Frame Net).

(** X16.  On a sound pool [newBuffer] hands out a buffer that nobody
    holds, emptied of whatever it held before, marks it as out, keeps
    the pool sound and leaves the contents of every other buffer
    alone. *)
Theorem newBuffer_fresh f :
  pool_wf (world f) ->
  let b := fst (pool_Get (world f)) in
  let f' := snd (@newBuffer E Net f) in
  fst (@newBuffer E Net f) = Next b /\
  heap (world f') b = [] /\
  ~ In b (out (world f)) /\
  out (world f') = b :: out (world f) /\
  deferred f' = deferred f /\
  pool_wf (world f') /\
  forall b', b' <> b -> heap (world f') b' = heap (world f) b'.
Proof.
  intros Hwf. cbn.
  split; [reflexivity |].
  split; [apply heap_set_buf_same |].
  split.
  { destruct Hwf as [Hnd Hlt]. unfold pool_Get.
    destruct (free (world f)) as [| a rest] eqn:Hfree; cbn in *.
    - intros Hin. apply Hlt in Hin. lia.
    - intros Hin. apply NoDup_cons_iff in Hnd. apply (proj1 Hnd).
      apply in_or_app. now right. }
  split; [apply out_Get |].
  split; [reflexivity |].
  split.
  { apply pool_wf_Get in Hwf. exact Hwf. }
  intros b' Hb'.
  rewrite heap_set_buf_other, heap_pool_Get_other by assumption.
  reflexivity.
Qed.

End NewBuffer.

(** A pool whose first buffer holds two stale bytes. *)
Lemma newBuffer_fresh_witness :
  pool_wf (world (mkFrame [] Demo.world1)) /\
  fst (@newBuffer string _ (mkFrame [] Demo.world1)) = Next 0%nat /\
  heap Demo.world1 0 = [Byte.xff; Byte.xff] /\
  heap (world (snd (@newBuffer string _ (mkFrame [] Demo.world1)))) 0 = [].
Proof.
  split; [exact pool_wf_world1 |].
  pose proof (@newBuffer_fresh string _ (mkFrame [] Demo.world1)
                pool_wf_world1) as (Hb & Hh & _).
  split; [exact Hb | split; [reflexivity | exact Hh]].
Defined.

(** ** A call through a codec *)

Section CodecRun.

Context {E Message Conn Net : Type}.
Variable env : Env E Message Conn Net.
Implicit Types (w : UDPWriter Conn) (m : Message) (s : World Net).

(** A call whose codec was made: the compressor is written the
    serialized record, as the view of the record's buffer, and closed
    once; if the write fails its error is returned and nothing is sent;
    if it works the contents of the scratch buffer go to the sender,
    and the call ends as the send ends, whatever the close reported. *)
Lemma codec_behaviour w m s c :
  codec_of (CompressionType w) = Some c ->
  snd (MarshalJSONBuf env m) = None ->
  NewWriterLevel env c (CompressionLevel w) = None ->
  In (EvZWrite c (mkSlice (Some (mBuf_of s)) (serialized env m)))
     (events_of env w m s) /\
  closes (events_of env w m s) = [c] /\
  (forall e,
     snd (zw_Write env c (CompressionLevel w) (serialized env m)) = Some e ->
     outcome_of env w m s = Return (Some e) /\
     sends (events_of env w m s) = [] /\
     net (world_after env w m s) = net s) /\
  (snd (zw_Write env c (CompressionLevel w) (serialized env m)) = None ->
   sends (events_of env w m s) =
     [mkSlice (Some (zBuf_of s)) (codec_output env w m c)] /\
   outcome_of env w m s =
     send_outcome env w (codec_output env w m c) (net s) /\
   net (world_after env w m s) =
     send_net env w (codec_output env w m c) (net s)).
Proof.
  intros Hc Hm Hnew.
  assert (Hplan : plan env w m = codec_plan env w m c).
  { unfold plan. rewrite Hm. revert Hc. unfold codec_of.
    destruct (CompressionType w =? CompressGzip); [now intros [= <-] |].
    destruct (CompressionType w =? CompressZlib); [now intros [= <-] |].
    discriminate. }
  destruct (WriteMessage_plan env w m s) as [Ho Hn].
  pose proof (sends_compressed env w m s) as Hs.
  rewrite compressed_plan, Hplan in Hs. rewrite Hplan in Ho, Hn.
  unfold codec_plan in Hs, Ho, Hn. rewrite Hnew in Hs, Ho, Hn.
  cbv zeta in Hs, Ho, Hn. rewrite Hc in Hs.
  split; [| split; [| split]].
  - unfold mBuf_of. run. rewrite Hm. cbn.
    switch_on (CompressionType w); injection Hc as <-; cbn;
      rewrite Hnew; cbn; autorewrite with world;
      (destruct (snd (zw_Write env _ (CompressionLevel w) (serialized env m)))
         as [e |]; cbn;
       [| autorewrite with world; split_chunked; cbn;
          [| autorewrite with world; split_conn_Write]]);
      events; auto 8 using in_eq, in_cons.
  - run. rewrite Hm. cbn.
    switch_on (CompressionType w); injection Hc as <-; cbn;
      rewrite Hnew; cbn; autorewrite with world;
      (destruct (snd (zw_Write env _ (CompressionLevel w) (serialized env m)))
         as [e |]; cbn;
       [| autorewrite with world; split_chunked; cbn;
          [| autorewrite with world; split_conn_Write]]);
      events; reflexivity.
  - intros e Hw. rewrite Hw in Hs, Ho, Hn.
    split; [exact Ho | split; [exact Hs | exact Hn]].
  - intros Hw. rewrite Hw in Hs, Ho, Hn.
    split; [exact Hs | split; [exact Ho | exact Hn]].
Qed.

(** C2 (amended).  With Gzip or Zlib and a record that serializes: the
    error of the constructor, and the error of the write, are returned
    as they are and nothing is sent.  The error of the close is dropped:
    after a write that worked, whatever the close reports, the contents
    of the scratch buffer (the output of the write, then of the close)
    go to the sender, once, and the call returns what the send gives
    and leaves the network as the send left it; the whole call runs as
    it would with a compressor whose close reports no error. *)
Theorem codec_errors w m s c :
  codec_of (CompressionType w) = Some c ->
  snd (MarshalJSONBuf env m) = None ->
  (forall e,
     NewWriterLevel env c (CompressionLevel w) = Some e ->
     outcome_of env w m s = Return (Some e) /\
     sends (events_of env w m s) = []) /\
  (forall e,
     NewWriterLevel env c (CompressionLevel w) = None ->
     snd (zw_Write env c (CompressionLevel w) (serialized env m)) = Some e ->
     outcome_of env w m s = Return (Some e) /\
     sends (events_of env w m s) = []) /\
  (forall cerr,
     NewWriterLevel env c (CompressionLevel w) = None ->
     snd (zw_Write env c (CompressionLevel w) (serialized env m)) = None ->
     snd (zw_Close env c (CompressionLevel w) (serialized env m) None) = cerr ->
     closes (events_of env w m s) = [c] /\
     sends (events_of env w m s) =
       [mkSlice (Some (zBuf_of s)) (codec_output env w m c)] /\
     outcome_of env w m s =
       send_outcome env w (codec_output env w m c) (net s) /\
     net (world_after env w m s) =
       send_net env w (codec_output env w m c) (net s)) /\
  WriteMessage (silence_Close env) w m s = WriteMessage env w m s.
Proof.
  intros Hc Hm. split; [| split; [| split]].
  - intros e Hnew.
    destruct (constructor_error_returned env w m s c e Hc Hm Hnew) as [-> ->].
    split; reflexivity.
  - intros e Hnew Hw.
    destruct (codec_behaviour w m s c Hc Hm Hnew) as (_ & _ & Hfail & _).
    destruct (Hfail e Hw) as (Ho & Hs & _). split; assumption.
  - intros cerr Hnew Hw _.
    destruct (codec_behaviour w m s c Hc Hm Hnew) as (_ & Hcl & _ & Hok).
    destruct (Hok Hw) as (Hs & Ho & Hn).
    split; [exact Hcl | split; [exact Hs | split; [exact Ho | exact Hn]]].
  - reflexivity.
Qed.

(** C10.  The writer [NewUDPWriter] returns has [CompressionLevel] at
    [flate.BestSpeed] and [CompressionType] at its zero value, which is
    [CompressGzip].  A call of [WriteMessage] on it, for a record that
    serializes, compresses with gzip at that level: it makes one gzip
    compressor at [flate.BestSpeed] and no other; if the constructor
    fails its error is returned and nothing is sent; otherwise the
    compressor is written the serialized record and closed once, a
    failed write is returned with nothing sent, and after a write that
    worked the output of the gzip compressor is what goes to the
    sender, the call ending as the send ends. *)
Theorem NewUDPWriter_defaults (addr : string) w :
  NewUDPWriter env addr = Ok w ->
  CompressionLevel w = flate_BestSpeed /\
  CompressionType w = CompressGzip /\
  forall m s,
    snd (MarshalJSONBuf env m) = None ->
    new_writers (events_of env w m s) = [(Gzip, flate_BestSpeed)] /\
    (forall e,
       NewWriterLevel env Gzip flate_BestSpeed = Some e ->
       outcome_of env w m s = Return (Some e) /\
       sends (events_of env w m s) = []) /\
    (NewWriterLevel env Gzip flate_BestSpeed = None ->
     In (EvZWrite Gzip (mkSlice (Some (mBuf_of s)) (serialized env m)))
        (events_of env w m s) /\
     closes (events_of env w m s) = [Gzip] /\
     (forall e,
        snd (zw_Write env Gzip flate_BestSpeed (serialized env m)) = Some e ->
        outcome_of env w m s = Return (Some e) /\
        sends (events_of env w m s) = []) /\
     (snd (zw_Write env Gzip flate_BestSpeed (serialized env m)) = None ->
      sends (events_of env w m s) =
        [mkSlice (Some (zBuf_of s))
           (fst (zw_Write env Gzip flate_BestSpeed (serialized env m)) ++
            fst (zw_Close env Gzip flate_BestSpeed (serialized env m) None))] /\
      outcome_of env w m s =
        send_outcome env w
          (fst (zw_Write env Gzip flate_BestSpeed (serialized env m)) ++
           fst (zw_Close env Gzip flate_BestSpeed (serialized env m) None))
          (net s))).
Proof.
  unfold NewUDPWriter. cbv zeta.
  destruct (net_Dial env "udp" addr) as [c | e]; [| discriminate].
  destruct (os_Hostname env) as [h | e]; [| discriminate].
  intros [= <-]. cbn [CompressionLevel CompressionType].
  split; [reflexivity | split; [reflexivity |]].
  intros m s Hm.
  set (w := mkUDPWriter c h (path_Base env (os_Args0 env)) flate_BestSpeed 0).
  assert (Hc : codec_of (CompressionType w) = Some Gzip) by reflexivity.
  split; [| split].
  - exact (new_writers_codec env w m s Gzip Hc Hm).
  - intros e Hnew.
    destruct (constructor_error_returned env w m s Gzip e Hc Hm Hnew)
      as [-> ->].
    split; reflexivity.
  - intros Hnew.
    destruct (codec_behaviour w m s Gzip Hc Hm Hnew)
      as (Hin & Hcl & Hfail & Hok).
    split; [exact Hin | split; [exact Hcl | split]].
    + intros e Hw. destruct (Hfail e Hw) as (Ho & Hs & _).
      split; assumption.
    + intros Hw. destruct (Hok Hw) as (Hs & Ho & _).
      split; [exact Hs | exact Ho].
Qed.

End CodecRun.

(** ** Buffers a call does not take *)

Section UntouchedBuffers.

Context {E Message Conn Net : Type}.
Variable env : Env E Message Conn Net.
Implicit Types (w : UDPWriter Conn) (m : Message) (s : World Net).

(** X14.  A call writes to no buffer but the ones it took: a buffer
    that is not among those the call got from the pool, on the path the
    call went (one buffer without compression and when it stops early,
    two through a codec), holds after the call what it held before. *)
Theorem other_buffers_untouched w m s (b : nat) :
  ~ In b (acquired (events_of env w m s)) ->
  heap (world_after env w m s) b = heap s b.
Proof.
  run.
  destruct (snd (MarshalJSONBuf env m)) as [e |] eqn:Hmar; cbn;
    [| switch_on (CompressionType w); cbn;
       [ destruct (NewWriterLevel env Gzip (CompressionLevel w)) as [e |];
         cbn;
         [| autorewrite with world;
            destruct (snd (zw_Write env Gzip (CompressionLevel w)
                             (serialized env m))) as [e |]; cbn;
            [| autorewrite with world; split_chunked; cbn;
               [| autorewrite with world; split_conn_Write]]]
       | destruct (NewWriterLevel env Zlib (CompressionLevel w)) as [e |];
         cbn;
         [| autorewrite with world;
            destruct (snd (zw_Write env Zlib (CompressionLevel w)
                             (serialized env m))) as [e |]; cbn;
            [| autorewrite with world; split_chunked; cbn;
               [| autorewrite with world; split_conn_Write]]]
       | autorewrite with world; split_chunked; cbn;
         [| autorewrite with world; split_conn_Write]
       | ]];
    events; intros Hb;
    assert (Hm : b <> fst (pool_Get s))
      by (intros ->; apply Hb; cbn; auto);
    try assert (Hz : b <> fst (pool_Get (snd (pool_Get s))))
      by (intros ->; apply Hb; cbn; auto).
  all: repeat (autorewrite with world;
            first [ rewrite heap_buf_append_other
                      by (autorewrite with world; assumption)
                  | rewrite heap_set_buf_other
                      by (autorewrite with world; assumption)
                  | rewrite heap_pool_Get_other
                      by (autorewrite with world; assumption) ]);
    reflexivity.
Qed.

End UntouchedBuffers.

(** ** Runs of the last three theorems *)

(** A gzip compressor whose write works and whose close fails, on a
    working socket: no constructor or write error to return, the eight
    bytes of the scratch buffer are sent from buffer 1 and the call
    returns [nil]. *)
Lemma codec_errors_witness :
  codec_of (CompressionType (Demo.writer 0 1 CompressGzip)) = Some Gzip /\
  snd (MarshalJSONBuf Demo.close_fails (Demo.Serializable Demo.hello)) =
    None /\
  NewWriterLevel Demo.close_fails Gzip 1 = None /\
  snd (zw_Write Demo.close_fails Gzip 1 Demo.hello) = None /\
  snd (zw_Close Demo.close_fails Gzip 1 Demo.hello None) =
    Demo.err "close failed" /\
  ((forall e,
      NewWriterLevel Demo.close_fails Gzip 1 = Some e ->
      outcome_of Demo.close_fails (Demo.writer 0 1 CompressGzip)
        (Demo.Serializable Demo.hello) Demo.world0 = Return (Some e) /\
      sends (events_of Demo.close_fails (Demo.writer 0 1 CompressGzip)
               (Demo.Serializable Demo.hello) Demo.world0) = []) /\
   (forall e,
      NewWriterLevel Demo.close_fails Gzip 1 = None ->
      snd (zw_Write Demo.close_fails Gzip 1 Demo.hello) = Some e ->
      outcome_of Demo.close_fails (Demo.writer 0 1 CompressGzip)
        (Demo.Serializable Demo.hello) Demo.world0 = Return (Some e) /\
      sends (events_of Demo.close_fails (Demo.writer 0 1 CompressGzip)
               (Demo.Serializable Demo.hello) Demo.world0) = []) /\
   (forall cerr,
      NewWriterLevel Demo.close_fails Gzip 1 = None ->
      snd (zw_Write Demo.close_fails Gzip 1 Demo.hello) = None ->
      snd (zw_Close Demo.close_fails Gzip 1 Demo.hello None) = cerr ->
      closes (events_of Demo.close_fails (Demo.writer 0 1 CompressGzip)
                (Demo.Serializable Demo.hello) Demo.world0) = [Gzip] /\
      sends (events_of Demo.close_fails (Demo.writer 0 1 CompressGzip)
               (Demo.Serializable Demo.hello) Demo.world0) =
        [mkSlice (Some 1%nat) (magicGzip ++ Demo.hello ++ [Byte.x00])] /\
      outcome_of Demo.close_fails (Demo.writer 0 1 CompressGzip)
        (Demo.Serializable Demo.hello) Demo.world0 = Return None /\
      net (world_after Demo.close_fails (Demo.writer 0 1 CompressGzip)
             (Demo.Serializable Demo.hello) Demo.world0) =
        [magicGzip ++ Demo.hello ++ [Byte.x00]]) /\
   WriteMessage (silence_Close Demo.close_fails)
     (Demo.writer 0 1 CompressGzip) (Demo.Serializable Demo.hello)
     Demo.world0 =
   WriteMessage Demo.close_fails (Demo.writer 0 1 CompressGzip)
     (Demo.Serializable Demo.hello) Demo.world0) /\
  sends (events_of Demo.close_fails (Demo.writer 0 1 CompressGzip)
           (Demo.Serializable Demo.hello) Demo.world0) =
    [mkSlice (Some 1%nat) (magicGzip ++ Demo.hello ++ [Byte.x00])] /\
  outcome_of Demo.close_fails (Demo.writer 0 1 CompressGzip)
    (Demo.Serializable Demo.hello) Demo.world0 = Return None.
Proof.
  do 5 (split; [reflexivity |]).
  split.
  - exact (codec_errors Demo.close_fails (Demo.writer 0 1 CompressGzip)
             (Demo.Serializable Demo.hello) Demo.world0 Gzip
             eq_refl eq_refl).
  - destruct (proj1 (proj2 (proj2
                (codec_errors Demo.close_fails
                   (Demo.writer 0 1 CompressGzip)
                   (Demo.Serializable Demo.hello) Demo.world0 Gzip
                   eq_refl eq_refl)))
                (Demo.err "close failed") eq_refl eq_refl eq_refl)
      as (_ & Hs & Ho & _).
    exact (conj Hs Ho).
Defined.

(** A writer made for a reachable address, and one record written with
    it: a gzip compressor at level 1 is made, written the five bytes of
    the record and closed, and its eight bytes of output are sent. *)
Lemma NewUDPWriter_defaults_witness :
  NewUDPWriter Demo.sound "graylog:12201" =
    Ok (mkUDPWriter 0%nat "localhost" "/usr/bin/app" 1 0) /\
  snd (MarshalJSONBuf Demo.sound (Demo.Serializable Demo.hello)) = None /\
  NewWriterLevel Demo.sound Gzip flate_BestSpeed = None /\
  snd (zw_Write Demo.sound Gzip flate_BestSpeed Demo.hello) = None /\
  CompressionLevel (mkUDPWriter 0%nat "localhost" "/usr/bin/app" 1 0) =
    flate_BestSpeed /\
  CompressionType (mkUDPWriter 0%nat "localhost" "/usr/bin/app" 1 0) =
    CompressGzip /\
  new_writers
    (events_of Demo.sound (mkUDPWriter 0%nat "localhost" "/usr/bin/app" 1 0)
       (Demo.Serializable Demo.hello) Demo.world0) =
    [(Gzip, flate_BestSpeed)] /\
  (forall e,
     NewWriterLevel Demo.sound Gzip flate_BestSpeed = Some e ->
     outcome_of Demo.sound
       (mkUDPWriter 0%nat "localhost" "/usr/bin/app" 1 0)
       (Demo.Serializable Demo.hello) Demo.world0 = Return (Some e) /\
     sends (events_of Demo.sound
              (mkUDPWriter 0%nat "localhost" "/usr/bin/app" 1 0)
              (Demo.Serializable Demo.hello) Demo.world0) = []) /\
  In (EvZWrite Gzip (mkSlice (Some 0%nat) Demo.hello))
     (events_of Demo.sound (mkUDPWriter 0%nat "localhost" "/usr/bin/app" 1 0)
        (Demo.Serializable Demo.hello) Demo.world0) /\
  closes
    (events_of Demo.sound (mkUDPWriter 0%nat "localhost" "/usr/bin/app" 1 0)
       (Demo.Serializable Demo.hello) Demo.world0) = [Gzip] /\
  (forall e,
     snd (zw_Write Demo.sound Gzip flate_BestSpeed Demo.hello) = Some e ->
     outcome_of Demo.sound
       (mkUDPWriter 0%nat "localhost" "/usr/bin/app" 1 0)
       (Demo.Serializable Demo.hello) Demo.world0 = Return (Some e) /\
     sends (events_of Demo.sound
              (mkUDPWriter 0%nat "localhost" "/usr/bin/app" 1 0)
              (Demo.Serializable Demo.hello) Demo.world0) = []) /\
  sends
    (events_of Demo.sound (mkUDPWriter 0%nat "localhost" "/usr/bin/app" 1 0)
       (Demo.Serializable Demo.hello) Demo.world0) =
    [mkSlice (Some 1%nat) (magicGzip ++ Demo.hello ++ [Byte.x00])] /\
  outcome_of Demo.sound (mkUDPWriter 0%nat "localhost" "/usr/bin/app" 1 0)
    (Demo.Serializable Demo.hello) Demo.world0 = Return None.
Proof.
  do 4 (split; [reflexivity |]).
  pose proof (NewUDPWriter_defaults Demo.sound "graylog:12201"
                (mkUDPWriter 0%nat "localhost" "/usr/bin/app" 1 0) eq_refl)
    as (Hl & Ht & Hw).
  destruct (Hw (Demo.Serializable Demo.hello) Demo.world0 eq_refl)
    as (Hnew & Hfail & Hrun).
  destruct (Hrun eq_refl) as (Hin & Hcl & Hwerr & Hsent).
  destruct (Hsent eq_refl) as (Hs & Ho).
  exact (conj Hl (conj Ht (conj Hnew (conj Hfail (conj Hin (conj Hcl
           (conj Hwerr (conj Hs Ho)))))))).
Defined.

(** Without compression the call takes buffer 0 alone: buffer 1, the
    next in the pool, keeps its two bytes. *)
Lemma other_buffers_untouched_witness :
  acquired (events_of Demo.sound (Demo.writer 0 1 CompressNone)
              (Demo.Serializable Demo.hello) Demo.world1) = [0%nat] /\
  ~ In 1%nat
      (acquired (events_of Demo.sound (Demo.writer 0 1 CompressNone)
                   (Demo.Serializable Demo.hello) Demo.world1)) /\
  heap (world_after Demo.sound (Demo.writer 0 1 CompressNone)
          (Demo.Serializable Demo.hello) Demo.world1) 1 =
    [Byte.xff; Byte.xff].
Proof.
  assert (Hb : ~ In 1%nat
                 (acquired (events_of Demo.sound
                              (Demo.writer 0 1 CompressNone)
                              (Demo.Serializable Demo.hello) Demo.world1))).
  { vm_compute. intros [H | []]. discriminate H. }
  split; [reflexivity | split; [exact Hb |]].
  exact (other_buffers_untouched Demo.sound (Demo.writer 0 1 CompressNone)
           (Demo.Serializable Demo.hello) Demo.world1 1%nat Hb).
Defined.
